(** * A memorising reimbursement engine and its improvement loop

    Shallow embedding of [rules_engine.py] and [continuous_improvement.py].

    Conventions of the model.
    - A Python [float] is idealised as an exact rational ([Qc], rationals in
      lowest terms, so that Leibniz equality is numeric equality, which is
      what Python's [==] and dictionary lookup use): a decimal numeral
      denotes its exact value and arithmetic does not round.  Infinities
      and NaN are outside the model.
    - A Python [int] is a [Z].
    - Text is a [string] of bytes; the two section markers of the evaluation
      report that are not ASCII appear as their UTF-8 bytes, and the classes
      of white space and digits are the ASCII ones.
    - [print] calls are not modelled: they do not influence any state. *)

From Stdlib Require Import ZArith QArith Qcanon Ascii String List Bool Sorted Lia.
From stdpp Require Import gmap strings list fin_maps pretty.

Local Open Scope Z_scope.

(** ** Numbers *)

Module PyNum.

Definition float := Qc.

(** [decimal m e] is the number written with mantissa [m] and [e] digits
    after the point: [decimal 12033 2] is 120.33. *)
Definition decimal (m : Z) (e : nat) : float :=
  Q2Qc (m # Pos.of_nat (10 ^ e)).

Definition zero : float := Q2Qc 0.
Definition of_int (z : Z) : float := Q2Qc (inject_Z z).

Definition eqb (x y : float) : bool := Qeq_bool x y.
Definition leb (x y : float) : bool := Qle_bool x y.
Definition ltb (x y : float) : bool := negb (Qle_bool y x).

(** Nearest integer, ties to the even one, of an exact rational. *)
Definition round_half_even (q : Q) : Z :=
  let n := Qnum q in
  let d := Z.pos (Qden q) in
  let f := n / d in
  let r := n mod d in
  match 2 * r ?= d with
  | Lt => f
  | Gt => f + 1
  | Eq => if Z.even f then f else f + 1
  end.

(** Python's [round(x, ndigits)] on a float, for [ndigits >= 0]: the value
    is rounded, ties to even, to a multiple of [10 ^ -ndigits]. *)
Definition py_round (x : float) (ndigits : nat) : float :=
  let scale := Z.of_nat (10 ^ ndigits) in
  Q2Qc (round_half_even (x * inject_Z scale)%Q # Z.to_pos scale).

(** [max(0, y)] as Python evaluates it: the first argument is kept unless
    the second is strictly larger. *)
Definition py_max0 (y : float) : float :=
  if ltb zero y then y else zero.

End PyNum.
Export PyNum.

(** ** The rule store ([rules_engine.py]) *)

Definition Key : Type := Z * float * float.

(** The [quiet] flag of the engine only silences its prints and is left out. *)
Record RulesEngine := mkEngine {
  rules_file : string;
  rules : gmap Key float
}.

Definition _make_key (trip_duration_days : Z) (miles_traveled total_receipts_amount : float)
  : Key :=
  (trip_duration_days, py_round miles_traveled 2, py_round total_receipts_amount 2).

Definition add_rule (self : RulesEngine)
    (trip_duration_days : Z) (miles_traveled total_receipts_amount output : float)
  : RulesEngine :=
  let key := _make_key trip_duration_days miles_traveled total_receipts_amount in
  mkEngine (rules_file self) (<[key := output]> (rules self)).

Definition predict (self : RulesEngine)
    (trip_duration_days : Z) (miles_traveled total_receipts_amount : float) : float :=
  let key := _make_key trip_duration_days miles_traveled total_receipts_amount in
  default zero (rules self !! key).

Definition get_rule_count (self : RulesEngine) : nat :=
  size (rules self).

Definition get_zero_count (self : RulesEngine) : nat :=
  length (filter (λ value, eqb value zero = true) (map_to_list (rules self)).*2).

(** The number of entries whose amount is not 0.0, computed as
    [run_iteration] does: [total_count - zero_count]. *)
Definition non_default_count (self : RulesEngine) : nat :=
  (get_rule_count self - get_zero_count self)%nat.

(** ** Text and regular expressions *)

Module Text.

(** [str.isspace] on the ASCII range. *)
Definition is_space (c : ascii) : bool :=
  let n := nat_of_ascii c in
  ((9 <=? n) && (n <=? 13) || (28 <=? n) && (n <=? 32))%nat.

Definition is_digit (c : ascii) : bool :=
  let n := nat_of_ascii c in ((48 <=? n) && (n <=? 57))%nat.

Definition is_dot (c : ascii) : bool := Ascii.eqb c ".".

Definition newline : ascii := ascii_of_nat 10.

(** [s.split(sep)] for a separator of one character. *)
Fixpoint split (sep : ascii) (s : string) : list string :=
  match s with
  | EmptyString => [EmptyString]
  | String c s' =>
      if Ascii.eqb c sep then EmptyString :: split sep s'
      else match split sep s' with
           | [] => [String c EmptyString]
           | w :: ws => String c w :: ws
           end
  end.

Fixpoint drop (n : nat) (s : string) : string :=
  match n, s with
  | O, _ => s
  | S _, EmptyString => EmptyString
  | S n', String _ s' => drop n' s'
  end.

Fixpoint take (n : nat) (s : string) : string :=
  match n, s with
  | O, _ => EmptyString
  | S _, EmptyString => EmptyString
  | S n', String c s' => String c (take n' s')
  end.

(** [s.startswith(p)]. *)
Fixpoint startswith (s p : string) : bool :=
  match p, s with
  | EmptyString, _ => true
  | String _ _, EmptyString => false
  | String a p', String b s' => Ascii.eqb a b && startswith s' p'
  end.

(** [needle in s]. *)
Fixpoint contains (needle s : string) : bool :=
  startswith s needle ||
  match s with
  | EmptyString => false
  | String _ s' => contains needle s'
  end.

Fixpoint lstrip (s : string) : string :=
  match s with
  | EmptyString => EmptyString
  | String c s' => if is_space c then lstrip s' else s
  end.

Fixpoint rstrip (s : string) : string :=
  match s with
  | EmptyString => EmptyString
  | String c s' =>
      match rstrip s' with
      | EmptyString => if is_space c then EmptyString else String c EmptyString
      | r => String c r
      end
  end.

(** [s.strip()]. *)
Definition strip (s : string) : string := rstrip (lstrip s).

(** *** A backtracking matcher for the patterns of the program

    A pattern is a sequence of items: literal text, a repeated character
    class (at least [min] times, greedy or lazy, captured as a group or
    not), or the end of the text.  Alternatives are tried in the order of
    Python's [re]: a greedy repetition from the longest run down, a lazy
    one from the shortest up; the first complete match wins. *)

Inductive Item :=
| Lit (text : string)
| Rep (cls : ascii -> bool) (min : nat) (greedy capture : bool)
| Eos.

Fixpoint span (cls : ascii -> bool) (s : string) : nat :=
  match s with
  | EmptyString => O
  | String c s' => if cls c then S (span cls s') else O
  end.

Definition candidates (min longest : nat) (greedy : bool) : list nat :=
  let up := seq min (S longest - min) in
  if greedy then rev up else up.

Fixpoint first_success {A} (f : nat -> option A) (js : list nat) : option (nat * A) :=
  match js with
  | [] => None
  | j :: js' =>
      match f j with
      | Some a => Some (j, a)
      | None => first_success f js'
      end
  end.

(** Match the pattern at the head of [s]; the result lists the groups. *)
Fixpoint match_here (p : list Item) (s : string) : option (list string) :=
  match p with
  | [] => Some []
  | Lit t :: p' =>
      if startswith s t then match_here p' (drop (String.length t) s) else None
  | Eos :: p' =>
      match s with
      | EmptyString => match_here p' s
      | String _ _ => None
      end
  | Rep cls min greedy capture :: p' =>
      match first_success (fun j => match_here p' (drop j s))
                          (candidates min (span cls s) greedy) with
      | Some (j, groups) => Some (if capture then take j s :: groups else groups)
      | None => None
      end
  end.

(** [re.search(p, s)]: the match at the leftmost position that has one. *)
Fixpoint search (p : list Item) (s : string) : option (list string) :=
  match match_here p s with
  | Some groups => Some groups
  | None =>
      match s with
      | EmptyString => None
      | String _ s' => search p s'
      end
  end.

(** [re.fullmatch(p, s)]. *)
Definition fullmatch (p : list Item) (s : string) : option (list string) :=
  match_here (p ++ [Eos]) s.

Definition digits := Rep is_digit 1 true true.             (* (\d+) *)
Definition number := Rep (fun c => is_digit c || is_dot c) 1 true true.  (* ([\d.]+) *)

(** *** Numerals *)

Definition digit_value (c : ascii) : Z := Z.of_nat (nat_of_ascii c - 48).

Fixpoint digits_value (acc : Z) (s : string) : Z :=
  match s with
  | EmptyString => acc
  | String c s' => digits_value (10 * acc + digit_value c) s'
  end.

(** [int(s)] for a text made of digits. *)
Definition py_int (s : string) : Z := digits_value 0 s.

Fixpoint all_chars (cls : ascii -> bool) (s : string) : bool :=
  match s with
  | EmptyString => true
  | String c s' => cls c && all_chars cls s'
  end.

(** [float(s)] for a text made of digits and dots: a value when the text is
    digits with at most one dot and at least one digit, [None] (Python
    raises [ValueError]) otherwise. *)
Definition py_float (s : string) : option float :=
  let whole := take (span is_digit s) s in
  let rest := drop (span is_digit s) s in
  match rest with
  | EmptyString =>
      match whole with
      | EmptyString => None
      | _ => Some (of_int (py_int whole))
      end
  | String c frac =>
      if is_dot c && all_chars is_digit frac
         && negb (String.length whole + String.length frac =? 0)%nat
      then Some (decimal (digits_value (py_int whole) frac) (String.length frac))
      else None
  end.

End Text.

(** ** Files

    A file is seen through what [json.load] makes of it: a JSON object of
    rules, a JSON array of cases, or bytes on which [json.load] raises.  A
    file just opened with mode ['w'] is empty, and while [json.dump] runs it
    holds a strict prefix of the JSON text: [Incomplete] stands for every
    such content. *)

Inductive JsonValue :=
| JNumber (x : float)
| JOther.                 (* null, an array, an object: [float(v)] raises *)

Inductive ManifestEntry :=
| CaseEntry (days : Z) (miles receipts : float)
| BadEntry.               (* an entry without the three numeric fields *)

Inductive FileContent :=
| Incomplete
| RulesDocument (items : list (string * JsonValue))
| CaseList (cases : list ManifestEntry).

Abbreviation FileSystem := (gmap string FileContent).

(** The operations a program performs on files.  [Replace] is the rename of
    one path over another ([os.replace]). *)
Inductive FsOp :=
| OpenForWriting (path : string)
| DumpAndClose (path : string) (doc : FileContent)
| Replace (src dst : string).

Definition apply_op (fs : FileSystem) (op : FsOp) : FileSystem :=
  match op with
  | OpenForWriting path => <[path := Incomplete]> fs
  | DumpAndClose path doc => <[path := doc]> fs
  | Replace src dst =>
      match fs !! src with
      | Some c => <[dst := c]> (delete src fs)
      | None => fs
      end
  end.

Definition run_ops (fs : FileSystem) (ops : list FsOp) : FileSystem :=
  foldl apply_op fs ops.

(** The file systems that exist while [ops] run: one after each
    operation (the last is the final one). *)
Fixpoint states_during (fs : FileSystem) (ops : list FsOp) : list FileSystem :=
  match ops with
  | [] => []
  | op :: ops' => apply_op fs op :: states_during (apply_op fs op) ops'
  end.

(** ** Decoding a persisted key: [eval]

    [load_rules] hands every key text to Python's [eval].  The model covers
    the texts [save_rules] writes for ordinary keys, [(d, m.f, r.f)], on
    which [eval] builds the tuple, and texts on which [eval] certainly
    raises [SyntaxError]: the empty text, and a text made only of digits,
    dots, commas, blanks and parentheses whose parentheses do not pair up.
    Any other text is [EvalUnmodelled]. *)

Inductive EvalResult :=
| EvalKey (k : Key)
| EvalRaises
| EvalUnmodelled.

Module KeyLiteral.
Import Text.

Definition pattern : list Item :=
  [Lit "("; digits; Lit ", "; number; Lit ", "; number; Lit ")"].

(** A decimal integer literal may not start with 0 unless it is 0. *)
Definition int_literal (t : string) : option Z :=
  match t with
  | String "0" (String _ _) => None
  | _ => Some (py_int t)
  end.

Definition float_literal (t : string) : option float :=
  if contains "." t then py_float t else None.

Definition plain (c : ascii) : bool :=
  is_digit c || is_dot c || Ascii.eqb c "," || Ascii.eqb c " "
  || Ascii.eqb c "(" || Ascii.eqb c ")".

Fixpoint count (c : ascii) (s : string) : nat :=
  match s with
  | EmptyString => O
  | String a s' => (if Ascii.eqb a c then 1 else 0) + count c s'
  end.

Definition unbalanced (s : string) : bool :=
  all_chars plain s && negb (count "(" s =? count ")" s)%nat.

End KeyLiteral.

Definition py_eval (key_str : string) : EvalResult :=
  match key_str with
  | EmptyString => EvalRaises
  | _ =>
      match Text.fullmatch KeyLiteral.pattern key_str with
      | Some [d; m; r] =>
          match KeyLiteral.int_literal d,
                KeyLiteral.float_literal m, KeyLiteral.float_literal r with
          | Some d', Some m', Some r' => EvalKey (d', m', r')
          | _, _, _ => EvalUnmodelled
          end
      | _ => if KeyLiteral.unbalanced key_str then EvalRaises else EvalUnmodelled
      end
  end.

(** [float(value)] on a value read from JSON. *)
Definition float_of_json (value : JsonValue) : option float :=
  match value with
  | JNumber x => Some x
  | JOther => None
  end.

(** ** Loading ([load_rules]) *)

Inductive LoopResult :=
| Completed (rules : gmap Key float)
| Raised
| Unmodelled.

(** The [for key_str, value in data.items()] loop. *)
Fixpoint load_items (items : list (string * JsonValue)) (acc : gmap Key float)
  : LoopResult :=
  match items with
  | [] => Completed acc
  | (key_str, value) :: rest =>
      match py_eval key_str with
      | EvalKey key_tuple =>
          match float_of_json value with
          | Some v => load_items rest (<[key_tuple := v]> acc)
          | None => Raised
          end
      | EvalRaises => Raised
      | EvalUnmodelled => Unmodelled
      end
  end.

(** [load_rules]: [None] only when a key text lies outside the modelled
    part of [eval].  Every exception is caught by the one handler around
    the whole load, which sets [self.rules = {}]. *)
Definition load_rules (self : RulesEngine) (fs : FileSystem) : option RulesEngine :=
  match fs !! rules_file self with
  | Some (RulesDocument items) =>
      match load_items items ∅ with
      | Completed loaded => Some (mkEngine (rules_file self) loaded)
      | Raised => Some (mkEngine (rules_file self) ∅)
      | Unmodelled => None
      end
  | Some Incomplete | Some (CaseList _) => Some (mkEngine (rules_file self) ∅)
  | None => Some (mkEngine (rules_file self) ∅)
  end.

(** [RulesEngine(rules_file)]. *)
Definition new_engine (rules_file : string) (fs : FileSystem) : option RulesEngine :=
  load_rules (mkEngine rules_file ∅) fs.

(** ** Records of the evaluation report *)

Record CaseInput := mkInput {
  trip_duration_days : Z;
  miles_traveled : float;
  total_receipts_amount : float
}.

Record ErrorCase := mkError {
  input : CaseInput;
  expected_output : float;
  actual_output : float;
  error_magnitude : float;
  case_number : Z
}.

Section Persistence.

(** Python's [repr] of a float, the text [str(key)] and [json.dump] use for
    it.  No property below depends on its digits. *)
Variable float_repr : float -> string.

(** [str(key)] for a key tuple. *)
Definition str_key (key : Key) : string :=
  let '(d, m, r) := key in
  "(" +:+ pretty d +:+ ", " +:+ float_repr m +:+ ", " +:+ float_repr r +:+ ")".

(** ** Saving ([save_rules])

    [open(self.rules_file, 'w')] truncates the file; [json.dump] then writes
    the document into it.  The items of the document carry no order. *)
Definition save_rules_ops (self : RulesEngine) : list FsOp :=
  let data := (λ kv, (str_key kv.1, JNumber kv.2)) <$> map_to_list (rules self) in
  [OpenForWriting (rules_file self);
   DumpAndClose (rules_file self) (RulesDocument data)].

Definition save_rules (self : RulesEngine) (fs : FileSystem) : FileSystem :=
  run_ops fs (save_rules_ops self).

(** ** Seeding from the case manifest ([initialize_from_private_cases]) *)

(** The [for case in cases] loop: [false] when an entry made it raise; the
    rules added before stay in memory. *)
Fixpoint add_cases (self : RulesEngine) (cases : list ManifestEntry)
  : RulesEngine * bool :=
  match cases with
  | [] => (self, true)
  | CaseEntry d m r :: rest => add_cases (add_rule self d m r zero) rest
  | BadEntry :: _ => (self, false)
  end.

Definition initialize_from_private_cases (self : RulesEngine)
    (private_cases_file : string) (fs : FileSystem) : RulesEngine * FileSystem :=
  match fs !! private_cases_file with
  | Some (CaseList cases) =>
      match add_cases self cases with
      | (self', true) => (self', save_rules self' fs)
      | (self', false) => (self', fs)
      end
  | Some (RulesDocument []) => (self, save_rules self fs)
  | Some (RulesDocument (_ :: _)) => (self, fs)   (* a key text is no case *)
  | Some Incomplete | None => (self, fs)
  end.

(** ** Learning from error cases ([RulesEngine.update_rules_from_errors]) *)

Definition add_error_case (self : RulesEngine) (error_case : ErrorCase) : RulesEngine :=
  let input_data := input error_case in
  add_rule self (trip_duration_days input_data) (miles_traveled input_data)
           (total_receipts_amount input_data) (expected_output error_case).

Definition engine_update_rules_from_errors (self : RulesEngine)
    (error_cases : list ErrorCase) (fs : FileSystem) : RulesEngine * FileSystem :=
  let self' := foldl add_error_case self error_cases in
  (self', save_rules self' fs).

End Persistence.

(** ** Reading the evaluation report ([continuous_improvement.py]) *)

Module Report.
Import Text.

Definition any_char (c : ascii) : bool := negb (Ascii.eqb c newline).   (* . *)

(** [Case (\d+): (\d+) days, ([\d.]+) miles, \$([\d.]+) receipts] *)
Definition case_pattern : list Item :=
  [Lit "Case "; digits; Lit ": "; digits; Lit " days, "; number;
   Lit " miles, $"; number; Lit " receipts"].

(** [Expected: \$([\d.]+), Got: \$([\d.]+), Error: \$([\d.]+)] *)
Definition values_pattern : list Item :=
  [Lit "Expected: $"; number; Lit ", Got: $"; number; Lit ", Error: $"; number].

(** [Exact matches.*?(\d+)\s*\(([\d.]+)%\)] *)
Definition exact_pattern : list Item :=
  [Lit "Exact matches"; Rep any_char 0 false false; digits;
   Rep is_space 0 true false; Lit "("; number; Lit "%)"].

(** [Average error: \$([\d.]+)] *)
Definition average_pattern : list Item :=
  [Lit "Average error: $"; number].

Definition of_bytes (l : list nat) : string :=
  string_of_list_ascii (map ascii_of_nat l).

(** The two markers that end the error section: U+26A0 U+FE0F and U+1F4DD. *)
Definition warning_sign : string := of_bytes [226; 154; 160; 239; 184; 143]%nat.
Definition memo_sign : string := of_bytes [240; 159; 147; 157]%nat.

Definition section_header : string := "Check these high-error cases:".

(** The case a [Case] line announced, waiting for its metrics line. *)
Definition PendingCase : Type := Z * CaseInput.

(** What a [Case] line does to [current_case]: [None] when [float] raises. *)
Definition parse_case_line (line : string) (current_case : option PendingCase)
  : option (option PendingCase) :=
  match search case_pattern line with
  | Some [g1; g2; g3; g4] =>
      match py_float g3, py_float g4 with
      | Some miles, Some receipts =>
          Some (Some (py_int g1, mkInput (py_int g2) miles receipts))
      | _, _ => None
      end
  | _ => Some current_case
  end.

(** What a metrics line yields for the pending case: [None] when [float]
    raises, [Some None] when the pattern does not match. *)
Definition parse_values_line (line : string) (current_case : PendingCase)
  : option (option ErrorCase) :=
  match search values_pattern line with
  | Some [g1; g2; g3] =>
      match py_float g1, py_float g2, py_float g3 with
      | Some expected, Some actual, Some error_magnitude =>
          Some (Some (mkError (snd current_case) expected actual error_magnitude
                              (fst current_case)))
      | _, _, _ => None
      end
  | _ => Some None
  end.

(** The [for line in lines] loop of [extract_errors_from_eval_output], with
    its three variables; [None] when a conversion raises [ValueError]. *)
Fixpoint scan (lines : list string) (in_error_section : bool)
    (current_case : option PendingCase) (errors : list ErrorCase)
  : option (list ErrorCase) :=
  match lines with
  | [] => Some errors
  | line :: rest =>
      if contains section_header line then scan rest true current_case errors
      else if in_error_section
              && (startswith (strip line) warning_sign
                  || startswith (strip line) memo_sign)
      then Some errors
      else if in_error_section && startswith (strip line) "Case" then
        match parse_case_line line current_case with
        | Some current_case' => scan rest in_error_section current_case' errors
        | None => None
        end
      else
        match current_case with
        | Some pending =>
            if in_error_section && contains "Expected:" line && contains "Got:" line
            then
              match parse_values_line line pending with
              | Some (Some error_case) =>
                  scan rest in_error_section None (errors ++ [error_case])
              | Some None => scan rest in_error_section current_case errors
              | None => None
              end
            else scan rest in_error_section current_case errors
        | None => scan rest in_error_section current_case errors
        end
  end.

(** The records of a report, in the order of the report. *)
Definition parse_errors (eval_output : string) : option (list ErrorCase) :=
  scan (split newline eval_output) false None [].

(** [errors.sort(key=error_magnitude, reverse=True)]: Python's sort is
    stable, also when reversed, so the result is the one of a stable
    insertion sort into descending order. *)
Fixpoint insert_desc (x : ErrorCase) (l : list ErrorCase) : list ErrorCase :=
  match l with
  | [] => [x]
  | y :: l' =>
      if ltb (error_magnitude x) (error_magnitude y)
      then y :: insert_desc x l'
      else x :: l
  end.

Definition sort_desc (l : list ErrorCase) : list ErrorCase :=
  foldr insert_desc [] l.

(** The slice [l[:n]]; a negative [n] counts from the end. *)
Definition slice_to {A} (l : list A) (n : Z) : list A :=
  if n <? 0 then firstn (Z.to_nat (Z.of_nat (length l) + n)) l
  else firstn (Z.to_nat n) l.

(** The last two lines of [extract_errors_from_eval_output]. *)
Definition top_n (errors : list ErrorCase) (n : Z) : list ErrorCase :=
  slice_to (sort_desc errors) n.

Definition extract_errors_from_eval_output (top_n_errors : Z) (eval_output : string)
  : option (list ErrorCase) :=
  match parse_errors eval_output with
  | Some errors => Some (top_n errors top_n_errors)
  | None => None
  end.

(** [extract_score_from_output]; [None] when [float] raises. *)
Definition extract_score_from_output (output : string) : option float :=
  match search exact_pattern output with
  | Some [_; percentage] => py_float percentage
  | _ =>
      match search average_pattern output with
      | Some [avg] =>
          match py_float avg with
          | Some avg_error => Some (py_max0 (of_int 100 - avg_error)%Qc)
          | None => None
          end
      | _ => Some zero
      end
  end.

End Report.

(** ** The improvement loop *)

Record ContinuousImprovement := mkImprovement {
  engine : RulesEngine;
  top_n_errors : Z;
  iteration : nat
}.

(** What [subprocess.run(['bash', 'eval.sh'], ...)] comes back with. *)
Inductive HarnessOutcome :=
| CannotRun                                   (* the call itself raises *)
| Exited (returncode : Z) (stdout : string).

(** The harness is an external process: [harness i] is the outcome of its
    run in iteration [i]. *)
Definition Harness : Type := nat -> HarnessOutcome.

Definition run_evaluation (self : ContinuousImprovement) (outcome : HarnessOutcome)
  : float * list ErrorCase :=
  match outcome with
  | CannotRun => (zero, [])
  | Exited returncode output =>
      if negb (returncode =? 0) then (zero, [])
      else
        match Report.extract_errors_from_eval_output (top_n_errors self) output with
        | None => (zero, [])
        | Some errors =>
            match Report.extract_score_from_output output with
            | None => (zero, [])
            | Some score => (score, errors)
            end
        end
  end.

Inductive Exit := CONVERGED | STAGNATED | EXHAUSTED.

(** How [run_continuous_improvement] ends after its loop: the closing
    report needs a score (there is none when no iteration ran) and divides
    by the number of rules. *)
Inductive Ending :=
| Reported (final_score final_completion_rate : float)
| NameError
| ZeroDivisionError.

Record Run := mkRun {
  exit : Exit;
  final : ContinuousImprovement;
  files : FileSystem;
  last_score : option float;
  ending : Ending
}.

Definition private_cases_file : string := "private_cases.json".

Section Loop.

Variable float_repr : float -> string.
Variable harness : Harness.

Definition update_rules_from_errors (self : ContinuousImprovement)
    (errors : list ErrorCase) (fs : FileSystem) : ContinuousImprovement * FileSystem :=
  match errors with
  | [] => (self, fs)
  | _ :: _ =>
      let '(engine', fs') :=
        engine_update_rules_from_errors float_repr (engine self) errors fs in
      (mkImprovement engine' (top_n_errors self) (iteration self), fs')
  end.

Definition initialize_rules (self : ContinuousImprovement) (fs : FileSystem)
  : ContinuousImprovement * FileSystem :=
  let '(engine', fs') :=
    initialize_from_private_cases float_repr (engine self) private_cases_file fs in
  (mkImprovement engine' (top_n_errors self) (iteration self), fs').

(** [run_iteration]: the score, the number of zero rules, and the state. *)
Definition run_iteration (self : ContinuousImprovement) (fs : FileSystem)
  : float * nat * ContinuousImprovement * FileSystem :=
  let self1 := mkImprovement (engine self) (top_n_errors self) (S (iteration self)) in
  let '(score, errors) := run_evaluation self1 (harness (iteration self1)) in
  let '(self2, fs') := update_rules_from_errors self1 errors fs in
  (score, get_zero_count (engine self2), self2, fs').

Definition max_stagnant_iterations : nat := 2.

(** The [for iteration in range(max_iterations)] loop with its two [break]s;
    [remaining] counts the iterations the range still allows. *)
Fixpoint improvement_loop (target_score : float) (remaining : nat)
    (self : ContinuousImprovement) (fs : FileSystem)
    (best_score : float) (iterations_without_improvement : nat) (score : option float)
  : Exit * ContinuousImprovement * FileSystem * option float :=
  match remaining with
  | O => (EXHAUSTED, self, fs, score)
  | S remaining' =>
      let '(score, _, self', fs') := run_iteration self fs in
      if leb target_score score then (CONVERGED, self', fs', Some score)
      else
        let '(best_score', stagnant) :=
          if ltb best_score score then (score, O)
          else (best_score, S iterations_without_improvement) in
        if (max_stagnant_iterations <=? stagnant)%nat
        then (STAGNATED, self', fs', Some score)
        else improvement_loop target_score remaining' self' fs'
                              best_score' stagnant (Some score)
  end.

Definition closing_report (self : ContinuousImprovement) (score : option float) : Ending :=
  match score with
  | None => NameError
  | Some final_score =>
      let total := get_rule_count (engine self) in
      if (total =? 0)%nat then ZeroDivisionError
      else Reported final_score
             (of_int (Z.of_nat (total - get_zero_count (engine self)))
              / of_int (Z.of_nat total) * of_int 100)%Qc
  end.

Definition run_continuous_improvement (self : ContinuousImprovement) (fs : FileSystem)
    (max_iterations : Z) (target_score : float) : Run :=
  let '(self0, fs0) :=
    if (get_rule_count (engine self) =? 0)%nat then initialize_rules self fs
    else (self, fs) in
  let '(exit, self', fs', score) :=
    improvement_loop target_score (Z.to_nat max_iterations) self0 fs0 zero O None in
  mkRun exit self' fs' score (closing_report self' score).

End Loop.

(** ** The lookup command ([calculate_reimbursement.py]) *)

Module Cli.
Import Text.

(** [int(s)] and [float(s)] on a command-line argument.  The model covers
    the arguments made of digits and dots, and the empty argument; on any
    other text the conversion is [OtherText]. *)
Inductive Conversion (A : Type) :=
| Converted (a : A)
| ValueError
| OtherText.
Arguments Converted {A} a.
Arguments ValueError {A}.
Arguments OtherText {A}.

Definition digit_or_dot (c : ascii) : bool := is_digit c || is_dot c.

Definition cli_int (s : string) : Conversion Z :=
  match s with
  | EmptyString => ValueError
  | _ =>
      if all_chars is_digit s then Converted (py_int s)
      else if all_chars digit_or_dot s then ValueError
      else OtherText
  end.

Definition cli_float (s : string) : Conversion float :=
  match s with
  | EmptyString => ValueError
  | _ =>
      if all_chars digit_or_dot s then
        match py_float s with
        | Some v => Converted v
        | None => ValueError
        end
      else OtherText
  end.

Definition two_digits (n : Z) : string :=
  (if n <? 10 then "0" else "") +:+ pretty n.

(** [f"{amount:.2f}"]: the amount rounded, ties to even, to two decimals. *)
Definition format_2f (amount : float) : string :=
  let cents := Z.abs (round_half_even (amount * inject_Z 100)%Q) in
  (if ltb amount zero then "-" else "")
  +:+ pretty (cents / 100) +:+ "." +:+ two_digits (cents mod 100).

(** How the command ends: its exit status and what it wrote on standard
    output. *)
Inductive Outcome :=
| Exit (status : Z) (stdout : string)
| NotModelled.

Definition default_rules_file : string := "rules.json".

(** [main], on the arguments after the script name. *)
Definition main (args : list string) (fs : FileSystem) : Outcome :=
  match args with
  | [days_text; miles_text; receipts_text] =>
      match cli_int days_text with
      | ValueError => Exit 2 ""
      | OtherText => NotModelled
      | Converted days =>
          match cli_float miles_text with
          | ValueError => Exit 2 ""
          | OtherText => NotModelled
          | Converted miles =>
              match cli_float receipts_text with
              | ValueError => Exit 2 ""
              | OtherText => NotModelled
              | Converted receipts =>
                  match new_engine default_rules_file fs with
                  | Some engine =>
                      let amount := predict engine days miles receipts in
                      Exit 0 (format_2f amount +:+ String newline EmptyString)
                  | None => NotModelled
                  end
              end
          end
      end
  | _ => Exit 1 ""
  end.

End Cli.

(** ** The progress observer ([monitor_progress.py], [get_completion_stats]) *)

Module Monitor.

Record Stats := mkStats {
  total_rules : nat;
  completed_rules : nat;
  zero_rules : nat;
  completion_rate : float;
  error : bool
}.

(** The statistics returned when anything raises. *)
Definition error_stats : Stats := mkStats 0 0 0 zero true.

(** [sum(1 for value in data.values() if float(value) != 0.0)]: [None] when
    a [float(value)] raises. *)
Fixpoint count_completed (values : list JsonValue) : option nat :=
  match values with
  | [] => Some O
  | value :: rest =>
      match float_of_json value with
      | None => None
      | Some x =>
          match count_completed rest with
          | None => None
          | Some n => Some (if eqb x zero then n else S n)
          end
      end
  end.

Definition get_completion_stats (rules_file : string) (fs : FileSystem) : Stats :=
  match fs !! rules_file with
  | Some (RulesDocument data) =>
      let total := length data in
      match count_completed data.*2 with
      | Some completed =>
          mkStats total completed (total - completed)
                  (if (0 <? total)%nat
                   then (of_int (Z.of_nat completed) / of_int (Z.of_nat total)
                         * of_int 100)%Qc
                   else zero)
                  false
      | None => error_stats
      end
  | Some Incomplete | Some (CaseList _) | None => error_stats
  end.

End Monitor.

(** ** Vocabulary of the properties *)

(** The fractions of a key: equality of closed keys is decided on them. *)
Definition key_fractions (k : Key) : Z * Q * Q := (k.1.1, this k.1.2, this k.2).

(** A raw input: days, miles, receipts, and the amount to store for it. *)
Definition Upsert : Type := Z * float * float * float.

Definition upsert_key (u : Upsert) : Key := _make_key u.1.1.1 u.1.1.2 u.1.2.
Definition upsert (self : RulesEngine) (u : Upsert) : RulesEngine :=
  add_rule self u.1.1.1 u.1.1.2 u.1.2 u.2.

(** A rendering of numbers as text, numerator over denominator, to run the
    model on examples. *)
Definition fraction_repr (x : float) : string :=
  pretty (Qnum x) +:+ "/" +:+ pretty (Z.pos (Qden x)).

(** The paths an operation writes or removes. *)
Definition op_paths (op : FsOp) : list string :=
  match op with
  | OpenForWriting path => [path]
  | DumpAndClose path _ => [path]
  | Replace src dst => [src; dst]
  end.

(** The discipline of an atomic save: the document is written to another
    path, which is then renamed over the target. *)
Definition writes_then_renames (ops : list FsOp) (target : string) : Prop :=
  ∃ tmp doc, tmp ≠ target
    ∧ ops = [OpenForWriting tmp; DumpAndClose tmp doc; Replace tmp target].

(** What a reader is promised: no file system that exists while [ops] run
    shows an incomplete target. *)
Definition never_incomplete (fs : FileSystem) (ops : list FsOp) (target : string) : Prop :=
  ∀ fs', fs' ∈ states_during fs ops -> fs' !! target ≠ Some Incomplete.

(** One record of a rules document, decoded as the loop of [load_rules] does. *)
Definition decode_record (item : string * JsonValue) : option (Key * float) :=
  match py_eval item.1, float_of_json item.2 with
  | EvalKey k, Some v => Some (k, v)
  | _, _ => None
  end.

(** The record makes the loop raise: [eval] rejects its key, or [float] its
    value. *)
Definition record_raises (item : string * JsonValue) : Prop :=
  py_eval item.1 = EvalRaises
  ∨ (∃ k, py_eval item.1 = EvalKey k) ∧ float_of_json item.2 = None.

Definition store_all (kvs : list (Key * float)) (acc : gmap Key float) : gmap Key float :=
  foldl (λ acc kv, <[kv.1 := kv.2]> acc) acc kvs.

(** [a] may stand before [b] in a list sorted by descending magnitude. *)
Definition magnitude_ge (a b : ErrorCase) : Prop :=
  (error_magnitude b <= error_magnitude a)%Qc.

(** The lines the parser reads as the error section: those after the first
    header line, up to the first marker line; header lines are not part. *)
Definition is_header (line : string) : bool :=
  Text.contains Report.section_header line.
Definition is_marker (line : string) : bool :=
  Text.startswith (Text.strip line) Report.warning_sign
  || Text.startswith (Text.strip line) Report.memo_sign.
Definition is_case_line (line : string) : bool :=
  Text.startswith (Text.strip line) "Case".

Fixpoint error_section (lines : list string) (inside : bool) : list string :=
  match lines with
  | [] => []
  | line :: rest =>
      if is_header line then error_section rest true
      else if inside then
        if is_marker line then [] else line :: error_section rest true
      else error_section rest false
  end.

Definition case_lines (eval_output : string) : nat :=
  length (filter (λ line, is_case_line line = true)
                 (error_section (Text.split Text.newline eval_output) false)).

(** The records the parser hands on: none when a conversion raises. *)
Definition emitted (eval_output : string) : list ErrorCase :=
  default [] (Report.parse_errors eval_output).

(** A pending case can still yield one record. *)
Definition pending_count (current_case : option Report.PendingCase) : nat :=
  match current_case with Some _ => 1 | None => 0 end.

(** A line that is neither a header, a closing marker nor a case line: the
    parser gets to look at it as a metrics line. *)
Definition plain_line (line : string) : Prop :=
  is_header line = false ∧ is_marker line = false ∧ is_case_line line = false.

Definition is_metrics_line (line : string) : bool :=
  Text.contains "Expected:" line && Text.contains "Got:" line.

(** The harness exits non-zero, or could not be run at all. *)
Definition harness_failed (outcome : HarnessOutcome) : Prop :=
  match outcome with
  | CannotRun => True
  | Exited returncode _ => returncode ≠ 0
  end.

(** The loop object once an iteration has begun: only the counter moved. *)
Definition started (self : ContinuousImprovement) : ContinuousImprovement :=
  mkImprovement (engine self) (top_n_errors self) (S (iteration self)).

(** The stagnation bookkeeping of one iteration that missed the target. *)
Definition next_best (best_score score : float) : float :=
  if ltb best_score score then score else best_score.
Definition next_stagnant (best_score score : float) (stagnant : nat) : nat :=
  if ltb best_score score then O else S stagnant.

(** Harnesses of the examples: one whose every report scores 10.0, one that
    always exits with status 1. *)
Definition steady_harness : Harness := λ _, Exited 0 "Exact matches: 100 (10.0%)".
Definition failing_harness : Harness := λ _, Exited 1 "".

(** ** Sample reports *)

Definition br : string := String Text.newline EmptyString.

(** Two cases of equal magnitude, the larger case number first. *)
Definition tied_report : string :=
  "  Check these high-error cases:" +:+ br +:+
  "    Case 7: 2 days, 30 miles, $12.50 receipts" +:+ br +:+
  "      Expected: $5.00, Got: $0.00, Error: $5.00" +:+ br +:+
  "    Case 3: 1 days, 10 miles, $5.00 receipts" +:+ br +:+
  "      Expected: $5.00, Got: $0.00, Error: $5.00".

(** A metrics line before any case, a case with two metrics lines, a case
    without one, and a case after the closing marker. *)
Definition ragged_report : string :=
  "Exact matches: 50 (25.0%)" +:+ br +:+
  "  Check these high-error cases:" +:+ br +:+
  "      Expected: $9.00, Got: $0.00, Error: $9.00" +:+ br +:+
  "    Case 669: 7 days, 1033 miles, $1013.03 receipts" +:+ br +:+
  "      Expected: $2119.83, Got: $0.00, Error: $2119.83" +:+ br +:+
  "      Expected: $1.00, Got: $0.00, Error: $1.00" +:+ br +:+
  "    Case 4: 1 days, 10 miles, $5.00 receipts" +:+ br +:+
  "    Case 5: 1 days, 10 miles, $5.00 receipts" +:+ br +:+
  "      Expected: $3000.00, Got: $0.00, Error: $3000.00" +:+ br +:+
  "  " +:+ Report.memo_sign +:+ " Tips" +:+ br +:+
  "    Case 6: 1 days, 10 miles, $5.00 receipts" +:+ br +:+
  "      Expected: $77.00, Got: $0.00, Error: $77.00".

(** ** Vocabulary of further properties *)

(** The key under which an error case is learned. *)
Definition error_key (e : ErrorCase) : Key :=
  _make_key (trip_duration_days (input e)) (miles_traveled (input e))
            (total_receipts_amount (input e)).

(** [e'] is the same store file with at least the keys of [e]. *)
Definition keeps_keys (e e' : RulesEngine) : Prop :=
  rules_file e' = rules_file e
  ∧ ∀ k, is_Some (rules e !! k) -> is_Some (rules e' !! k).

(** A rendering of amounts in whole cents with two decimals, as in
    [17.97], to run the model on examples. *)
Definition cents_repr (x : float) : string :=
  let cents := round_half_even (x * inject_Z 100)%Q in
  let frac := cents mod 100 in
  pretty (cents / 100) +:+ "." +:+ (if frac <? 10 then "0" else "") +:+ pretty frac.

(** No number of the record is negative. *)
Definition nonnegative_input (i : CaseInput) : Prop :=
  0 <= trip_duration_days i
  ∧ (zero <= miles_traveled i)%Qc ∧ (zero <= total_receipts_amount i)%Qc.

Definition nonnegative_record (e : ErrorCase) : Prop :=
  nonnegative_input (input e) ∧ 0 <= case_number e
  ∧ (zero <= expected_output e)%Qc ∧ (zero <= actual_output e)%Qc
  ∧ (zero <= error_magnitude e)%Qc.

(** * Properties *)

(** ** Facts on numbers *)

Lemma round_half_even_inject (q : Q) (k : Z) :
  (q == inject_Z k)%Q -> round_half_even q = k.
Proof.
  intros H. unfold round_half_even.
  destruct q as [n d]. unfold Qeq in H. simpl in *.
  assert (Hn : n = k * Z.pos d) by lia.
  rewrite Hn, Z.div_mul, Z.mod_mul by lia.
  replace (2 * 0 ?= Z.pos d) with Lt; [reflexivity|].
  symmetry. apply Z.compare_lt_iff. lia.
Qed.

Lemma scaled_back (k s : Z) :
  0 < s -> (this (Q2Qc (k # Z.to_pos s)) * inject_Z s == inject_Z k)%Q.
Proof.
  intros Hs. simpl this. rewrite Qred_correct.
  unfold Qeq, Qmult, inject_Z. simpl.
  rewrite Pos.mul_1_r, Z2Pos.id by lia. lia.
Qed.

Lemma py_round_idempotent (x : float) (n : nat) :
  py_round (py_round x n) n = py_round x n.
Proof.
  unfold py_round at 1 3.
  assert (Hs : 0 < Z.of_nat (10 ^ n)).
  { assert (10 ^ n <> 0)%nat by (apply Nat.pow_nonzero; lia). lia. }
  f_equal. f_equal.
  apply round_half_even_inject.
  unfold py_round. apply scaled_back, Hs.
Qed.

Ltac float_eq := apply Qc_is_canon; vm_compute; reflexivity.
Ltac float_neq :=
  let H := fresh in
  intros H; apply (f_equal this) in H; vm_compute in H; discriminate H.
Ltac key_neq :=
  let H := fresh in
  intros H; apply (f_equal key_fractions) in H; vm_compute in H; discriminate H.

(** ** The rule store *)

Lemma predict_add_rule_same (self : RulesEngine) d m r amount :
  predict (add_rule self d m r amount) d m r = amount.
Proof. unfold predict, add_rule. simpl. by rewrite lookup_insert_eq. Qed.

Lemma rules_add_rule_other (self : RulesEngine) d m r amount (k : Key) :
  _make_key d m r ≠ k ->
  rules (add_rule self d m r amount) !! k = rules self !! k.
Proof. intros Hne. unfold add_rule. simpl. by rewrite lookup_insert_ne. Qed.

Lemma rules_upserts_other (ups : list Upsert) (self : RulesEngine) (k : Key) :
  Forall (λ u, upsert_key u ≠ k) ups ->
  rules (foldl upsert self ups) !! k = rules self !! k.
Proof.
  revert self. induction ups as [|u ups IH]; intros self Hall; [done|].
  inversion Hall as [|? ? Hu Hrest]; subst. simpl.
  rewrite IH by done. by apply rules_add_rule_other.
Qed.

(** C9. Key normalisation is idempotent: normalising inputs whose miles and
    receipts are already rounded to two decimals gives the key of the raw
    inputs. *)
Theorem normalize_idempotent (d : Z) (m r : float) :
  _make_key d (py_round m 2) (py_round r 2) = _make_key d m r.
Proof. unfold _make_key. by rewrite !py_round_idempotent. Qed.

(** C1. After an upsert, [predict] on the same raw inputs returns the
    amount; and when the normalised key of the raw inputs is not in the
    store and no later upsert normalises to it, [predict] returns 0.0. *)
Theorem predict_after_upsert (self : RulesEngine) (ups : list Upsert)
    (d : Z) (m r amount : float) :
  predict (add_rule self d m r amount) d m r = amount
  ∧ (rules self !! _make_key d m r = None ->
     Forall (λ u, upsert_key u ≠ _make_key d m r) ups ->
     predict (foldl upsert self ups) d m r = zero).
Proof.
  split; [apply predict_add_rule_same|].
  intros Hnone Hall. unfold predict.
  by rewrite rules_upserts_other, Hnone.
Qed.

(** The scenario of the specification: 120.33 stored for (3, 100.5, 45.0)
    is found again, and (3, 100.51, 45.0), another key, yields 0.0. *)
Lemma predict_after_upsert_witness :
  let self := mkEngine "rules.json" ∅ in
  let u : Upsert := (3, decimal 1005 1, decimal 450 1, decimal 12033 2) in
  predict (upsert self u) 3 (decimal 1005 1) (decimal 450 1) = decimal 12033 2
  ∧ predict (foldl upsert self [u]) 3 (decimal 10051 2) (decimal 450 1) = zero.
Proof.
  intros self u. split.
  - apply (predict_after_upsert self [] 3 (decimal 1005 1) (decimal 450 1)
             (decimal 12033 2)).
  - apply (predict_after_upsert self [u] 3 (decimal 10051 2) (decimal 450 1) zero).
    + apply lookup_empty.
    + apply Forall_cons. split; [key_neq | apply Forall_nil_2].
Defined.

(** ** Seeding from the manifest *)

Lemma filter_all {A} (P : A -> Prop) `{!∀ x, Decision (P x)} (l : list A) :
  Forall P l -> length (filter P l) = length l.
Proof.
  induction 1 as [|x l Hx _ IH]; [done|].
  rewrite filter_cons_True by done. simpl. by rewrite IH.
Qed.

Lemma zero_count_all_zero (self : RulesEngine) :
  (∀ k v, rules self !! k = Some v -> v = zero) ->
  get_zero_count self = get_rule_count self.
Proof.
  intros Hzero. unfold get_zero_count, get_rule_count.
  rewrite filter_all.
  - by rewrite length_fmap, length_map_to_list.
  - apply Forall_fmap, Forall_forall. intros [k v] Hin. simpl.
    apply elem_of_map_to_list in Hin. by rewrite (Hzero k v Hin).
Qed.

Lemma add_cases_other (cases : list ManifestEntry) (self : RulesEngine) (k : Key) :
  (∀ d m r, CaseEntry d m r ∈ cases -> _make_key d m r ≠ k) ->
  rules (add_cases self cases).1 !! k = rules self !! k.
Proof.
  revert self. induction cases as [|[d m r|] cases IH]; intros self Hk; simpl; [done| |done].
  rewrite IH.
  - apply rules_add_rule_other, Hk. left.
  - intros d' m' r' Hin. apply Hk. by right.
Qed.

Lemma add_cases_keeps_zero (cases : list ManifestEntry) (self : RulesEngine) (k : Key) :
  rules self !! k = Some zero ->
  rules (add_cases self cases).1 !! k = Some zero.
Proof.
  revert self. induction cases as [|[d m r|] cases IH]; intros self Hk; simpl; [done| |done].
  apply IH. unfold add_rule. simpl.
  destruct (decide (_make_key d m r = k)) as [->|Hne].
  - apply lookup_insert_eq.
  - by rewrite lookup_insert_ne.
Qed.

Lemma add_cases_zero (cases : list ManifestEntry) (self : RulesEngine) d m r :
  BadEntry ∉ cases -> CaseEntry d m r ∈ cases ->
  rules (add_cases self cases).1 !! _make_key d m r = Some zero.
Proof.
  revert self. induction cases as [|c cases IH]; intros self Hbad Hin.
  - by apply elem_of_nil in Hin.
  - apply not_elem_of_cons in Hbad as [Hc Hbad].
    destruct c as [d' m' r'|]; [|done]. simpl.
    apply elem_of_cons in Hin as [Heq|Hin].
    + inversion Heq; subst. apply add_cases_keeps_zero.
      unfold add_rule. simpl. apply lookup_insert_eq.
    + by apply IH.
Qed.

Lemma initialize_engine float_repr (self : RulesEngine) (file : string)
    (fs : FileSystem) (cases : list ManifestEntry) :
  fs !! file = Some (CaseList cases) ->
  (initialize_from_private_cases float_repr self file fs).1 = (add_cases self cases).1.
Proof.
  intros Hfile. unfold initialize_from_private_cases. rewrite Hfile.
  by destruct (add_cases self cases) as [self' []].
Qed.

(** C3, as the code has it. Seeding stores 0.0 for every case of the
    manifest, whether or not its key is already in the store; a key no case
    normalises to keeps what it had; and an empty store seeded with two
    cases of distinct keys has size 2 and no entry other than 0.0. *)
Theorem initialize_sets_every_case_to_zero float_repr (self : RulesEngine)
    (file : string) (fs : FileSystem) (cases : list ManifestEntry) :
  fs !! file = Some (CaseList cases) ->
  BadEntry ∉ cases ->
  let self' := (initialize_from_private_cases float_repr self file fs).1 in
  (∀ d m r, CaseEntry d m r ∈ cases -> rules self' !! _make_key d m r = Some zero)
  ∧ (∀ k, (∀ d m r, CaseEntry d m r ∈ cases -> _make_key d m r ≠ k) ->
          rules self' !! k = rules self !! k)
  ∧ (∀ d1 m1 r1 d2 m2 r2,
       rules self = ∅ ->
       cases = [CaseEntry d1 m1 r1; CaseEntry d2 m2 r2] ->
       _make_key d1 m1 r1 ≠ _make_key d2 m2 r2 ->
       get_rule_count self' = 2%nat ∧ non_default_count self' = 0%nat).
Proof.
  intros Hfile Hbad self'. unfold self'. rewrite (initialize_engine _ _ _ _ _ Hfile).
  split; [|split].
  - intros d m r Hin. by apply add_cases_zero.
  - intros k Hk. by apply add_cases_other.
  - intros d1 m1 r1 d2 m2 r2 Hempty -> Hne. simpl.
    assert (Hsize : get_rule_count
              (add_rule (add_rule self d1 m1 r1 zero) d2 m2 r2 zero) = 2%nat).
    { unfold get_rule_count, add_rule. simpl. rewrite Hempty.
      rewrite map_size_insert_None by (by rewrite lookup_insert_ne).
      by rewrite map_size_insert_None, map_size_empty. }
    split; [done|]. unfold non_default_count.
    rewrite zero_count_all_zero; [lia|].
    intros k v. unfold add_rule. simpl. rewrite Hempty.
    rewrite !lookup_insert. repeat case_decide; naive_solver.
Qed.

(** The scenario of the specification: the cases (1, 10, 5.00) and
    (2, 20, 8.50) on an empty store. *)
Lemma initialize_sets_every_case_to_zero_witness :
  let self := mkEngine "rules.json" ∅ in
  let cases := [CaseEntry 1 (decimal 10 0) (decimal 500 2);
                CaseEntry 2 (decimal 20 0) (decimal 850 2)] in
  let fs : FileSystem := {[ private_cases_file := CaseList cases ]} in
  let self' :=
    (initialize_from_private_cases fraction_repr self private_cases_file fs).1 in
  get_rule_count self' = 2%nat ∧ non_default_count self' = 0%nat.
Proof.
  intros self cases fs self'.
  refine (proj2 (proj2 (initialize_sets_every_case_to_zero fraction_repr self
                          private_cases_file fs cases _ _)) _ _ _ _ _ _ _ _ _).
  - apply lookup_singleton_eq.
  - intros Hin. repeat (apply elem_of_cons in Hin as [Hin|Hin]; [discriminate Hin|]).
    by apply elem_of_nil in Hin.
  - reflexivity.
  - reflexivity.
  - key_neq.
Defined.

(** C3, counterexample: a store that holds 77.0 under the key of a manifest
    case holds 0.0 under it after seeding. *)
Lemma initialize_overwrites_present_key :
  let k := _make_key 1 (decimal 10 0) (decimal 500 2) in
  let self := mkEngine "rules.json" {[ k := decimal 77 0 ]} in
  let fs : FileSystem :=
    {[ private_cases_file := CaseList [CaseEntry 1 (decimal 10 0) (decimal 500 2)] ]} in
  let self' :=
    (initialize_from_private_cases fraction_repr self private_cases_file fs).1 in
  rules self !! k = Some (decimal 77 0)
  ∧ rules self' !! k = Some zero
  ∧ decimal 77 0 ≠ zero.
Proof.
  intros k self fs self'. split; [apply lookup_singleton_eq|]. split; [|float_neq].
  unfold self'. rewrite (initialize_engine _ _ _ _ [CaseEntry 1 (decimal 10 0) (decimal 500 2)]).
  - simpl. apply lookup_insert_eq.
  - apply lookup_singleton_eq.
Qed.

(** ** Saving *)

Lemma save_rules_states float_repr (self : RulesEngine) (fs : FileSystem) :
  states_during fs (save_rules_ops float_repr self)
  = [<[rules_file self := Incomplete]> fs; save_rules float_repr self fs].
Proof. reflexivity. Qed.

(** C2, as the code has it. [save_rules] opens the store file itself for
    writing and dumps the document into it: every operation addresses the
    store file, none is a rename; the first file system a reader can see
    during the save holds an incomplete store file, the last one the whole
    document; no other path changes. *)
Theorem save_rules_writes_in_place float_repr (self : RulesEngine) (fs : FileSystem) :
  let ops := save_rules_ops float_repr self in
  let target := rules_file self in
  Forall (λ op, op_paths op = [target]) ops
  ∧ ¬ writes_then_renames ops target
  ∧ ¬ never_incomplete fs ops target
  ∧ (∃ doc, save_rules float_repr self fs !! target = Some (RulesDocument doc)
            ∧ length doc = get_rule_count self)
  ∧ (∀ fs' path, fs' ∈ states_during fs ops -> path ≠ target ->
                 fs' !! path = fs !! path).
Proof.
  intros ops target. repeat split.
  - repeat constructor.
  - intros (tmp & doc & _ & Hops). discriminate Hops.
  - intros Hnever. apply (Hnever (<[target := Incomplete]> fs)).
    + unfold ops. rewrite save_rules_states. left.
    + apply lookup_insert_eq.
  - eexists. split.
    + unfold save_rules, run_ops. simpl. apply lookup_insert_eq.
    + by rewrite length_fmap, length_map_to_list.
  - intros fs' path Hin Hne. unfold ops in Hin. rewrite save_rules_states in Hin.
    apply elem_of_cons in Hin as [->|Hin].
    + by rewrite lookup_insert_ne.
    + apply list_elem_of_singleton in Hin as ->.
      unfold save_rules, run_ops. simpl. by rewrite !lookup_insert_ne.
Qed.

(** C2, counterexample: saving a store of one rule over an earlier store
    file. No temporary path is written and renamed, and while the save runs
    the store file is incomplete. *)
Lemma save_rules_not_atomic :
  let self := add_rule (mkEngine "rules.json" ∅) 3 (decimal 1005 1) (decimal 450 1)
                       (decimal 12033 2) in
  let fs : FileSystem := {[ "rules.json" := RulesDocument [] ]} in
  let ops := save_rules_ops fraction_repr self in
  ¬ writes_then_renames ops "rules.json"
  ∧ ¬ never_incomplete fs ops "rules.json".
Proof.
  intros self fs ops. split.
  - intros (tmp & doc & _ & Hops). discriminate Hops.
  - intros Hnever. apply (Hnever (<["rules.json" := Incomplete]> fs)).
    + left.
    + apply lookup_insert_eq.
Qed.

(** ** Loading *)

Lemma load_items_raises (good rest : list (string * JsonValue))
    (bad : string * JsonValue) (acc : gmap Key float) :
  Forall (λ item, is_Some (decode_record item)) good ->
  record_raises bad ->
  load_items (good ++ bad :: rest) acc = Raised.
Proof.
  intros Hgood Hbad. revert acc.
  induction Hgood as [|[key_str value] good [kv Hkv] _ IH]; intros acc; simpl.
  - destruct bad as [key_str value]. unfold record_raises in Hbad. simpl in Hbad.
    destruct Hbad as [->|[[k ->] ->]]; reflexivity.
  - unfold decode_record in Hkv. simpl in Hkv.
    destruct (py_eval key_str); try discriminate.
    destruct (float_of_json value); try discriminate. apply IH.
Qed.

Lemma load_items_completes (items : list (string * JsonValue))
    (kvs : list (Key * float)) (acc : gmap Key float) :
  Forall2 (λ item kv, decode_record item = Some kv) items kvs ->
  load_items items acc = Completed (store_all kvs acc).
Proof.
  intros Hdec. revert acc.
  induction Hdec as [|[key_str value] kv items kvs Hkv _ IH]; intros acc; [done|].
  unfold decode_record in Hkv. cbn [fst snd] in Hkv. cbn [load_items].
  destruct (py_eval key_str); try discriminate.
  destruct (float_of_json value); try discriminate.
  inversion Hkv; subst. apply IH.
Qed.

(** C4, as the code has it. A key text is decoded by [eval]; a record on
    which the loop raises (a key [eval] rejects, a value [float] rejects)
    leaves the store empty, whatever was loaded before it, because one
    handler around the whole load resets the store; when every record
    decodes, every record is stored; and a missing file gives the empty
    store. *)
Theorem load_rules_all_or_nothing (self : RulesEngine) (fs : FileSystem) :
  (fs !! rules_file self = None ->
   load_rules self fs = Some (mkEngine (rules_file self) ∅))
  ∧ (∀ good bad rest,
       fs !! rules_file self = Some (RulesDocument (good ++ bad :: rest)) ->
       Forall (λ item, is_Some (decode_record item)) good ->
       record_raises bad ->
       load_rules self fs = Some (mkEngine (rules_file self) ∅))
  ∧ (∀ items kvs,
       fs !! rules_file self = Some (RulesDocument items) ->
       Forall2 (λ item kv, decode_record item = Some kv) items kvs ->
       load_rules self fs = Some (mkEngine (rules_file self) (store_all kvs ∅))).
Proof.
  unfold load_rules. repeat split.
  - by intros ->.
  - intros good bad rest -> Hgood Hbad. by rewrite load_items_raises.
  - intros items kvs -> Hdec. by rewrite (load_items_completes _ kvs).
Qed.

Lemma load_rules_all_or_nothing_witness :
  let self := mkEngine "rules.json" ∅ in
  let good := ("(1, 47.0, 17.97)", JNumber (decimal 125 1)) in
  let fs : FileSystem :=
    {[ "rules.json" := RulesDocument [good; ("(2, 10.0, 5.0", JNumber (decimal 3 0))] ]} in
  load_rules self ∅ = Some self
  ∧ load_rules self fs = Some self.
Proof.
  intros self good fs. split.
  - apply (proj1 (load_rules_all_or_nothing self ∅)). apply lookup_empty.
  - apply (proj1 (proj2 (load_rules_all_or_nothing self fs))
             [good] ("(2, 10.0, 5.0", JNumber (decimal 3 0)) []).
    + apply lookup_singleton_eq.
    + apply Forall_cons. split; [|apply Forall_nil_2].
      vm_compute. eexists. reflexivity.
    + left. vm_compute. reflexivity.
Defined.

(** C4, counterexample: a document with a well-formed record followed by a
    record whose key text lacks its closing parenthesis. The load drops
    both: the store is empty, and the well-formed record is not found. *)
Lemma load_rules_drops_every_record :
  let self := mkEngine "rules.json" ∅ in
  let fs : FileSystem :=
    {[ "rules.json" := RulesDocument [("(1, 47.0, 17.97)", JNumber (decimal 125 1));
                                      ("(2, 10.0, 5.0", JNumber (decimal 3 0))] ]} in
  decode_record ("(1, 47.0, 17.97)", JNumber (decimal 125 1))
    = Some (1, decimal 470 1, decimal 1797 2, decimal 125 1)
  ∧ ∃ loaded, load_rules self fs = Some loaded
      ∧ rules loaded = ∅
      ∧ predict loaded 1 (decimal 470 1) (decimal 1797 2) = zero.
Proof.
  intros self fs. split.
  - unfold decode_record. simpl float_of_json.
    replace (py_eval _) with (EvalKey (1, decimal 470 1, decimal 1797 2)); [done|].
    vm_compute. reflexivity.
  - exists self. split; [|split; reflexivity].
    vm_compute. reflexivity.
Qed.

(** ** Order on numbers *)

Lemma leb_le (x y : float) : leb x y = true <-> (x <= y)%Qc.
Proof. unfold leb. apply Qle_bool_iff. Qed.

Lemma ltb_lt (x y : float) : ltb x y = true <-> (x < y)%Qc.
Proof.
  unfold ltb. rewrite negb_true_iff, <- not_true_iff_false, Qle_bool_iff.
  split; [apply Qnot_le_lt | apply Qlt_not_le].
Qed.

Lemma ltb_ge (x y : float) : ltb x y = false <-> (y <= x)%Qc.
Proof. unfold ltb. rewrite negb_false_iff. apply Qle_bool_iff. Qed.

Lemma py_max0_spec (y : float) :
  ((y <= zero)%Qc -> py_max0 y = zero) ∧ ((zero <= y)%Qc -> py_max0 y = y).
Proof.
  unfold py_max0. destruct (ltb zero y) eqn:Hlt.
  - apply ltb_lt in Hlt. split; [|done].
    intros Hle. exfalso. by apply (Qcle_not_lt _ _ Hle).
  - apply ltb_ge in Hlt. split; [done|].
    intros Hle. by apply Qcle_antisym.
Qed.

(** ** The worst records *)

Section Sorting.
Import Report.

Lemma insert_desc_perm (x : ErrorCase) (l : list ErrorCase) :
  insert_desc x l ≡ₚ x :: l.
Proof.
  induction l as [|y l IH]; simpl; [done|].
  destruct (ltb _ _); [|done]. rewrite IH. apply Permutation_swap.
Qed.

Lemma sort_desc_perm (l : list ErrorCase) : sort_desc l ≡ₚ l.
Proof.
  induction l as [|x l IH]; simpl; [done|].
  by rewrite insert_desc_perm, IH.
Qed.

Lemma insert_desc_sorted (x : ErrorCase) (l : list ErrorCase) :
  StronglySorted magnitude_ge l -> StronglySorted magnitude_ge (insert_desc x l).
Proof.
  induction 1 as [|y l Hsorted IH Hy]; simpl.
  - repeat constructor.
  - destruct (ltb _ _) eqn:Hlt.
    + apply ltb_lt in Hlt. constructor; [done|].
      rewrite insert_desc_perm. constructor; [|done].
      by apply Qclt_le_weak.
    + apply ltb_ge in Hlt. constructor; [by constructor|].
      constructor; [done|].
      eapply Forall_impl; [exact Hy|]. intros z Hz. unfold magnitude_ge in *.
      by etrans.
Qed.

Lemma sort_desc_sorted (l : list ErrorCase) : StronglySorted magnitude_ge (sort_desc l).
Proof.
  induction l as [|x l IH]; simpl; [constructor|]. by apply insert_desc_sorted.
Qed.

Lemma insert_desc_stable (m : float) (x : ErrorCase) (l : list ErrorCase) :
  filter (λ e, error_magnitude e = m) (insert_desc x l)
  = filter (λ e, error_magnitude e = m) (x :: l).
Proof.
  induction l as [|y l IH]; simpl; [done|].
  destruct (ltb _ _) eqn:Hlt; [|done].
  apply ltb_lt in Hlt.
  rewrite (filter_cons _ y), IH, !filter_cons.
  repeat case_decide; try done.
  exfalso. apply (Qclt_not_eq _ _ Hlt). congruence.
Qed.

Lemma sort_desc_stable (m : float) (l : list ErrorCase) :
  filter (λ e, error_magnitude e = m) (sort_desc l)
  = filter (λ e, error_magnitude e = m) l.
Proof.
  induction l as [|x l IH]; simpl; [done|].
  by rewrite insert_desc_stable, !filter_cons, IH.
Qed.

Lemma slice_to_take {A} (l : list A) (n : Z) : ∃ k, slice_to l n = take k l.
Proof. unfold slice_to. destruct (n <? 0); eauto. Qed.

Lemma take_sorted {A} (R : A -> A -> Prop) (k : nat) (l : list A) :
  StronglySorted R l -> StronglySorted R (take k l).
Proof.
  intros Hs. revert k. induction Hs as [|x l _ IH Hx]; intros [|k]; simpl;
    try constructor; [apply IH|].
  eapply Forall_forall. intros y Hy.
  eapply Forall_forall in Hx; [exact Hx|]. eapply subseteq_take, Hy.
Qed.

End Sorting.

(** C6, as the code has it. For a count [n] that is not negative the
    selection has at most [n] records (a negative [n] drops the last [-n]
    records instead); it is sorted by descending magnitude; records of equal
    magnitude stand in the order of the report (the case number plays no
    part); and every record selected is a record parsed. *)
Theorem top_n_sorted_stable (errors : list ErrorCase) (n : Z) :
  (0 <= n -> Z.of_nat (length (Report.top_n errors n)) <= n)
  ∧ (n < 0 -> length (Report.top_n errors n)
              = Z.to_nat (Z.of_nat (length errors) + n))
  ∧ StronglySorted magnitude_ge (Report.top_n errors n)
  ∧ (∀ m, filter (λ e, error_magnitude e = m) (Report.top_n errors n)
          `prefix_of` filter (λ e, error_magnitude e = m) errors)
  ∧ Report.top_n errors n ⊆+ errors.
Proof.
  unfold Report.top_n.
  split; [|split; [|split; [|split]]].
  - intros Hn. unfold Report.slice_to. replace (n <? 0) with false by lia.
    rewrite length_take. lia.
  - intros Hn. unfold Report.slice_to. replace (n <? 0) with true by lia.
    rewrite length_take, (Permutation_length (sort_desc_perm errors)). lia.
  - destruct (slice_to_take (Report.sort_desc errors) n) as [k ->].
    apply take_sorted, sort_desc_sorted.
  - intros m. destruct (slice_to_take (Report.sort_desc errors) n) as [k ->].
    rewrite <- (sort_desc_stable m errors).
    rewrite <- (take_drop k (Report.sort_desc errors)) at 2.
    rewrite filter_app. by apply prefix_app_r.
  - destruct (slice_to_take (Report.sort_desc errors) n) as [k ->].
    rewrite <- (sort_desc_perm errors) at 2.
    apply submseteq_take.
Qed.

Lemma top_n_sorted_stable_witness :
  Z.of_nat (length (Report.top_n (emitted tied_report) 1)) <= 1
  ∧ length (Report.top_n (emitted tied_report) (-1))
    = Z.to_nat (Z.of_nat (length (emitted tied_report)) + -1).
Proof.
  split.
  - apply (proj1 (top_n_sorted_stable (emitted tied_report) 1)). lia.
  - apply (proj1 (proj2 (top_n_sorted_stable (emitted tied_report) (-1)))). lia.
Defined.

(** C6, counterexample: two records of magnitude 5.00, case 7 reported
    before case 3. The selection keeps case 7 first: the tie is not settled
    by ascending case number. And the count -1 selects one record, which is
    more than -1. *)
Lemma top_n_tie_keeps_report_order :
  fmap (M := option) (map (λ e, (case_number e, this (error_magnitude e))))
       (Report.extract_errors_from_eval_output 10 tied_report)
  = Some [(7, (5 # 1)%Q); (3, (5 # 1)%Q)]
  ∧ fmap (M := option) (map case_number)
         (Report.extract_errors_from_eval_output (-1) tied_report)
    = Some [7].
Proof. split; vm_compute; reflexivity. Qed.

(** ** The score *)

(** C7. The exact-match percentage is returned when the report has one,
    whatever else it has; without it, an average error [a] gives
    [max(0, 100 - a)]; without either the score is 0.0. *)
Theorem extract_score_precedence (output : string) :
  (∀ count percentage v,
     Text.search Report.exact_pattern output = Some [count; percentage] ->
     Text.py_float percentage = Some v ->
     Report.extract_score_from_output output = Some v)
  ∧ (∀ avg a,
       Text.search Report.exact_pattern output = None ->
       Text.search Report.average_pattern output = Some [avg] ->
       Text.py_float avg = Some a ->
       ∃ score, Report.extract_score_from_output output = Some score
         ∧ ((of_int 100 - a <= zero)%Qc -> score = zero)
         ∧ ((zero <= of_int 100 - a)%Qc -> score = (of_int 100 - a)%Qc))
  ∧ (Text.search Report.exact_pattern output = None ->
     Text.search Report.average_pattern output = None ->
     Report.extract_score_from_output output = Some zero).
Proof.
  unfold Report.extract_score_from_output. repeat split.
  - by intros count percentage v -> ->.
  - intros avg a -> -> ->. eexists. split; [done|]. apply py_max0_spec.
  - by intros -> ->.
Qed.

(** The scenarios of the specification: 25.0 from an exact-match line, also
    when an average error follows it; 90.0 from an average error of 10.00
    alone; 0.0 from a report with neither. *)
Lemma extract_score_precedence_witness :
  Report.extract_score_from_output "Exact matches: 50 (25.0%)" = Some (decimal 250 1)
  ∧ Report.extract_score_from_output
      ("Exact matches: 50 (25.0%)" +:+ br +:+ "Average error: $10.00")
    = Some (decimal 250 1)
  ∧ (∃ score, Report.extract_score_from_output "Average error: $10.00" = Some score
       ∧ score = (of_int 100 - decimal 1000 2)%Qc ∧ score = decimal 900 1)
  ∧ Report.extract_score_from_output "Total cases: 200" = Some zero.
Proof.
  split; [|split; [|split]].
  - apply (proj1 (extract_score_precedence _) "50" "25.0"); vm_compute; reflexivity.
  - apply (proj1 (extract_score_precedence _) "50" "25.0"); vm_compute; reflexivity.
  - destruct (proj1 (proj2 (extract_score_precedence "Average error: $10.00"))
                "10.00" (decimal 1000 2)) as (score & Hscore & _ & Hpos);
      [vm_compute; reflexivity ..|].
    exists score. split; [exact Hscore|].
    assert (Hs : score = (of_int 100 - decimal 1000 2)%Qc).
    { apply Hpos. apply Qle_bool_iff. vm_compute. reflexivity. }
    split; [exact Hs|]. rewrite Hs. float_eq.
  - apply (proj2 (proj2 (extract_score_precedence _))); vm_compute; reflexivity.
Defined.

(** ** One record per case line *)

Lemma scan_unfold (line : string) (rest : list string) (in_error_section : bool)
    (current_case : option Report.PendingCase) (errors : list ErrorCase) :
  Report.scan (line :: rest) in_error_section current_case errors =
  if is_header line then Report.scan rest true current_case errors
  else if in_error_section && is_marker line then Some errors
  else if in_error_section && is_case_line line then
    match Report.parse_case_line line current_case with
    | Some current_case' => Report.scan rest in_error_section current_case' errors
    | None => None
    end
  else
    match current_case with
    | Some pending =>
        if in_error_section && Text.contains "Expected:" line && Text.contains "Got:" line
        then
          match Report.parse_values_line line pending with
          | Some (Some error_case) =>
              Report.scan rest in_error_section None (errors ++ [error_case])
          | Some None => Report.scan rest in_error_section current_case errors
          | None => None
          end
        else Report.scan rest in_error_section current_case errors
    | None => Report.scan rest in_error_section current_case errors
    end.
Proof. reflexivity. Qed.

Lemma error_section_unfold (line : string) (rest : list string) (inside : bool) :
  error_section (line :: rest) inside =
  if is_header line then error_section rest true
  else if inside then
    if is_marker line then [] else line :: error_section rest true
  else error_section rest false.
Proof. reflexivity. Qed.

Lemma scan_bound (lines : list string) (in_error_section : bool)
    (current_case : option Report.PendingCase) (errors out : list ErrorCase) :
  Report.scan lines in_error_section current_case errors = Some out ->
  (length out ≤ length errors + pending_count current_case
                + length (filter (λ line, is_case_line line = true)
                                 (error_section lines in_error_section)))%nat.
Proof.
  revert in_error_section current_case errors.
  induction lines as [|line rest IH]; intros in_sec cur errors Hscan.
  - inversion Hscan; subst. simpl. lia.
  - rewrite scan_unfold in Hscan. rewrite error_section_unfold.
    destruct (is_header line).
    { apply IH in Hscan. lia. }
    destruct in_sec; cbn [andb] in Hscan.
    + destruct (is_marker line).
      { inversion Hscan; subst. simpl. lia. }
      destruct (is_case_line line) eqn:Hcase.
      * rewrite filter_cons_True by done. cbn [length].
        destruct (Report.parse_case_line line cur) as [cur'|]; [|done].
        apply IH in Hscan. destruct cur', cur; simpl in *; lia.
      * rewrite filter_cons_False by (by rewrite Hcase).
        destruct cur as [pending|]; [|by apply IH in Hscan].
        destruct (Text.contains "Expected:" line && Text.contains "Got:" line);
          [|by apply IH in Hscan].
        destruct (Report.parse_values_line line pending) as [[error_case|]|];
          [| |done]; apply IH in Hscan; [|done].
        rewrite length_app in Hscan. simpl in *. lia.
    + destruct cur as [pending|]; by apply IH in Hscan.
Qed.

Lemma scan_plain_no_pending (line : string) (rest : list string)
    (in_error_section : bool) (errors : list ErrorCase) :
  plain_line line ->
  Report.scan (line :: rest) in_error_section None errors
  = Report.scan rest in_error_section None errors.
Proof.
  intros (Hh & Hm & Hc). rewrite scan_unfold, Hh, Hm, Hc.
  by rewrite !andb_false_r.
Qed.

Lemma scan_metrics_pending (line : string) (rest : list string)
    (pending : Report.PendingCase) (errors : list ErrorCase) (error_case : ErrorCase) :
  plain_line line -> is_metrics_line line = true ->
  Report.parse_values_line line pending = Some (Some error_case) ->
  Report.scan (line :: rest) true (Some pending) errors
  = Report.scan rest true None (errors ++ [error_case]).
Proof.
  intros (Hh & Hm & Hc) Hmetrics Hvalues. rewrite scan_unfold, Hh, Hm, Hc.
  cbn [andb]. unfold is_metrics_line in Hmetrics. by rewrite Hmetrics, Hvalues.
Qed.

(** C10. The parser hands on at most one record per case line of the error
    section. A line read with no case pending yields no record; a metrics
    line read with a case pending yields its record and clears the pending
    case, so that a second metrics line after it yields nothing. *)
Theorem one_record_per_case_line (eval_output : string) :
  (length (emitted eval_output) ≤ case_lines eval_output)%nat
  ∧ (∀ line rest in_error_section errors,
       plain_line line ->
       Report.scan (line :: rest) in_error_section None errors
       = Report.scan rest in_error_section None errors)
  ∧ (∀ line rest pending errors error_case,
       plain_line line -> is_metrics_line line = true ->
       Report.parse_values_line line pending = Some (Some error_case) ->
       Report.scan (line :: rest) true (Some pending) errors
       = Report.scan rest true None (errors ++ [error_case]))
  ∧ (∀ line second rest pending errors error_case,
       plain_line line -> is_metrics_line line = true ->
       Report.parse_values_line line pending = Some (Some error_case) ->
       plain_line second ->
       Report.scan (line :: second :: rest) true (Some pending) errors
       = Report.scan rest true None (errors ++ [error_case])).
Proof.
  split; [|split; [|split]].
  - unfold emitted, case_lines, Report.parse_errors.
    destruct (Report.scan _ _ _ _) as [out|] eqn:Hscan; simpl; [|lia].
    apply scan_bound in Hscan. simpl in Hscan. lia.
  - intros. by apply scan_plain_no_pending.
  - intros. by apply scan_metrics_pending.
  - intros line second rest pending errors error_case Hl Hm Hv Hs.
    rewrite (scan_metrics_pending _ _ _ _ error_case) by done.
    by apply scan_plain_no_pending.
Qed.

(** A report with a metrics line before any case, a case with two metrics
    lines and a case with none: three case lines, two records. *)
Lemma one_record_per_case_line_witness :
  let first := "      Expected: $2119.83, Got: $0.00, Error: $2119.83" in
  let second := "      Expected: $1.00, Got: $0.00, Error: $1.00" in
  let pending : Report.PendingCase :=
    (669, mkInput 7 (decimal 1033 0) (decimal 101303 2)) in
  let error_case :=
    mkError (mkInput 7 (decimal 1033 0) (decimal 101303 2))
            (decimal 211983 2) (decimal 0 2) (decimal 211983 2) 669 in
  (length (emitted ragged_report) ≤ case_lines ragged_report)%nat
  ∧ map case_number (emitted ragged_report) = [669; 5]
  ∧ case_lines ragged_report = 3%nat
  ∧ Report.scan [first; second] true (Some pending) [] = Some [error_case].
Proof.
  intros first second pending error_case.
  split; [apply (one_record_per_case_line ragged_report)|].
  split; [vm_compute; reflexivity|]. split; [vm_compute; reflexivity|].
  rewrite (proj2 (proj2 (proj2 (one_record_per_case_line ragged_report)))
             first second [] pending [] error_case).
  - reflexivity.
  - repeat split; vm_compute; reflexivity.
  - vm_compute; reflexivity.
  - vm_compute; reflexivity.
  - repeat split; vm_compute; reflexivity.
Defined.

(** ** The improvement loop *)

Section LoopFacts.

Variable float_repr : float -> string.
Variable harness : Harness.

Lemma run_iteration_score (self : ContinuousImprovement) (fs : FileSystem) :
  (run_iteration float_repr harness self fs).1.1.1
  = (run_evaluation (started self) (harness (S (iteration self)))).1.
Proof.
  unfold run_iteration, started. simpl.
  destruct (run_evaluation _ _) as [score errors]. simpl.
  by destruct (update_rules_from_errors _ _ _ _).
Qed.

Lemma update_rules_from_errors_iteration (self : ContinuousImprovement)
    (errors : list ErrorCase) (fs : FileSystem) :
  iteration (update_rules_from_errors float_repr self errors fs).1 = iteration self.
Proof. by destruct errors. Qed.

Lemma run_iteration_iteration (self : ContinuousImprovement) (fs : FileSystem) :
  iteration (run_iteration float_repr harness self fs).1.2 = S (iteration self).
Proof.
  unfold run_iteration. simpl.
  destruct (run_evaluation _ _) as [score errors].
  pose proof (update_rules_from_errors_iteration
                (mkImprovement (engine self) (top_n_errors self) (S (iteration self)))
                errors fs) as Hit.
  destruct (update_rules_from_errors _ _ _ _). exact Hit.
Qed.

Lemma improvement_loop_step (target_score : float) (remaining : nat)
    (self : ContinuousImprovement) (fs : FileSystem)
    (best_score : float) (stagnant : nat) (last : option float) :
  improvement_loop float_repr harness target_score (S remaining) self fs
                   best_score stagnant last
  = let it := run_iteration float_repr harness self fs in
    let score := it.1.1.1 in
    if leb target_score score then (CONVERGED, it.1.2, it.2, Some score)
    else if (max_stagnant_iterations <=? next_stagnant best_score score stagnant)%nat
    then (STAGNATED, it.1.2, it.2, Some score)
    else improvement_loop float_repr harness target_score remaining it.1.2 it.2
           (next_best best_score score) (next_stagnant best_score score stagnant)
           (Some score).
Proof.
  cbn [improvement_loop]. unfold next_best, next_stagnant.
  destruct (run_iteration _ _ _ _) as [[[score zero_count] self'] fs']. simpl.
  by destruct (ltb best_score score).
Qed.

Lemma run_unfold (self : ContinuousImprovement) (fs : FileSystem)
    (max_iterations : Z) (target_score : float) :
  ∃ self0 fs0,
    iteration self0 = iteration self
    ∧ ∀ looped,
        looped = improvement_loop float_repr harness target_score
                   (Z.to_nat max_iterations) self0 fs0 zero O None ->
        run_continuous_improvement float_repr harness self fs max_iterations target_score
        = mkRun looped.1.1.1 looped.1.1.2 looped.1.2 looped.2
                (closing_report looped.1.1.2 looped.2).
Proof.
  unfold run_continuous_improvement.
  destruct (if (get_rule_count (engine self) =? 0)%nat
            then initialize_rules float_repr self fs else (self, fs))
    as [self0 fs0] eqn:Hinit.
  exists self0, fs0. split.
  - destruct (get_rule_count (engine self) =? 0)%nat.
    + unfold initialize_rules in Hinit.
      destruct (initialize_from_private_cases _ _ _ _) in Hinit.
      by inversion Hinit.
    + by inversion Hinit.
  - intros looped ->.
    by destruct (improvement_loop _ _ _ _ _ _ _ _ _) as [[[e s] f] sc].
Qed.

Section Steady.

(** Every report scores [c], below the target. *)
Variable target_score c : float.
Hypothesis steady : ∀ i self, (run_evaluation self (harness i)).1 = c.
Hypothesis below : leb target_score c = false.

Lemma steady_never_converges (remaining : nat) (self : ContinuousImprovement)
    (fs : FileSystem) (best_score : float) (stagnant : nat) (last : option float) :
  (improvement_loop float_repr harness target_score remaining self fs
                    best_score stagnant last).1.1.1 ≠ CONVERGED.
Proof.
  revert self fs best_score stagnant last.
  induction remaining as [|remaining IH]; intros self fs best stagnant last; [done|].
  rewrite improvement_loop_step. cbn zeta.
  rewrite run_iteration_score, steady, below.
  destruct (_ <=? _)%nat; [done|]. apply IH.
Qed.

Lemma steady_step (remaining : nat) (self : ContinuousImprovement)
    (fs : FileSystem) (best_score : float) (stagnant : nat) (last : option float) :
  improvement_loop float_repr harness target_score (S remaining) self fs
                   best_score stagnant last
  = let it := run_iteration float_repr harness self fs in
    if (max_stagnant_iterations <=? next_stagnant best_score c stagnant)%nat
    then (STAGNATED, it.1.2, it.2, Some c)
    else improvement_loop float_repr harness target_score remaining it.1.2 it.2
           (next_best best_score c) (next_stagnant best_score c stagnant) (Some c).
Proof.
  rewrite improvement_loop_step. cbn zeta.
  by rewrite run_iteration_score, steady, below.
Qed.

Lemma steady_stagnates (remaining : nat) (self : ContinuousImprovement)
    (fs : FileSystem) (last : option float) :
  ltb zero c = true ->
  ∃ self' fs',
    improvement_loop float_repr harness target_score
                     (S (S (S remaining))) self fs zero O last
    = (STAGNATED, self', fs', Some c)
    ∧ iteration self' = (iteration self + 3)%nat.
Proof.
  intros Hpos.
  assert (Hcc : ltb c c = false) by (apply ltb_ge; apply Qcle_refl).
  assert (H1 : next_stagnant zero c 0 = 0%nat) by (unfold next_stagnant; by rewrite Hpos).
  assert (H2 : next_best zero c = c) by (unfold next_best; by rewrite Hpos).
  assert (H3 : ∀ k, next_stagnant c c k = S k) by (intros k; unfold next_stagnant; by rewrite Hcc).
  assert (H4 : next_best c c = c) by (unfold next_best; by rewrite Hcc).
  rewrite steady_step. cbn zeta. rewrite H1, H2. cbn [Nat.leb max_stagnant_iterations].
  rewrite steady_step. cbn zeta. rewrite H3, H4. cbn [Nat.leb max_stagnant_iterations].
  rewrite steady_step. cbn zeta. rewrite H3. cbn [Nat.leb max_stagnant_iterations].
  eexists _, _. split; [reflexivity|].
  rewrite !run_iteration_iteration. lia.
Qed.

End Steady.
End LoopFacts.

(** C8. With target 95.0, a harness whose every report scores 10.0 never
    makes the loop converge, and with room for three iterations (the default
    budget is 300) the loop stops as stagnated after exactly three: one that
    sets the best score and two without improvement; the run then ends with
    its closing report when the store is not empty. After each iteration
    the target is checked first, the stagnation window (2) second, and the
    iteration budget last. *)
Theorem steady_score_stagnates float_repr (harness : Harness)
    (self : ContinuousImprovement) (fs : FileSystem) (max_iterations : Z) :
  (∀ i s, (run_evaluation s (harness i)).1 = decimal 100 1) ->
  let r := run_continuous_improvement float_repr harness self fs max_iterations
                                      (decimal 950 1) in
  exit r ≠ CONVERGED
  ∧ (3 <= max_iterations ->
     exit r = STAGNATED
     ∧ iteration (final r) = (iteration self + 3)%nat
     ∧ last_score r = Some (decimal 100 1)
     ∧ (get_rule_count (engine (final r)) ≠ O ->
        ∃ rate, ending r = Reported (decimal 100 1) rate))
  ∧ (∀ h target remaining s f best stagnant last,
       let it := run_iteration float_repr h s f in
       let score := it.1.1.1 in
       let looped := improvement_loop float_repr h target (S remaining) s f
                                      best stagnant last in
       (leb target score = true -> looped = (CONVERGED, it.1.2, it.2, Some score))
       ∧ (leb target score = false ->
          (max_stagnant_iterations ≤ next_stagnant best score stagnant)%nat ->
          looped = (STAGNATED, it.1.2, it.2, Some score))
       ∧ (leb target score = false ->
          (next_stagnant best score stagnant < max_stagnant_iterations)%nat ->
          remaining = O ->
          looped.1.1.1 = EXHAUSTED)).
Proof.
  intros Hsteady r.
  assert (Hbelow : leb (decimal 950 1) (decimal 100 1) = false)
    by (vm_compute; reflexivity).
  destruct (run_unfold float_repr harness self fs max_iterations (decimal 950 1))
    as (self0 & fs0 & Hit & Hrun).
  specialize (Hrun _ eq_refl). fold r in Hrun.
  split; [|split].
  - rewrite Hrun. simpl. by apply (steady_never_converges _ _ _ (decimal 100 1)).
  - intros Hmax.
    destruct (Z.to_nat max_iterations) as [|[|[|remaining]]] eqn:Hn; try lia.
    destruct (steady_stagnates float_repr harness (decimal 950 1) (decimal 100 1)
                Hsteady Hbelow remaining self0 fs0 None) as (self' & fs' & Hloop & Hcount);
      [vm_compute; reflexivity|].
    rewrite Hrun, Hloop. simpl. split; [done|]. split; [by rewrite Hcount, Hit|].
    split; [done|]. intros Hrules. unfold closing_report.
    destruct (Nat.eqb_spec (get_rule_count (engine self')) 0); [done|]. eauto.
  - intros h target remaining s f best stagnant last it score looped.
    unfold looped. rewrite improvement_loop_step. fold it. cbn zeta. fold score.
    split; [|split].
    + by intros ->.
    + intros -> Hwindow. apply Nat.leb_le in Hwindow. by rewrite Hwindow.
    + intros -> Hwindow ->. apply Nat.leb_gt in Hwindow. by rewrite Hwindow.
Qed.

(** The scenario of the specification, on a store of one rule with the
    default budget of 300 iterations. *)
Lemma steady_score_stagnates_witness :
  let self :=
    mkImprovement (add_rule (mkEngine "rules.json" ∅) 1 (decimal 10 0) (decimal 500 2)
                            zero) 10 0 in
  let r := run_continuous_improvement fraction_repr steady_harness self ∅ 300
                                      (decimal 950 1) in
  exit r = STAGNATED ∧ iteration (final r) = 3%nat
  ∧ last_score r = Some (decimal 100 1).
Proof.
  intros self r.
  destruct (proj1 (proj2 (steady_score_stagnates fraction_repr steady_harness self ∅ 300
                            (λ i s, eq_refl))) ltac:(lia)) as (He & Hi & Hs & _).
  exact (conj He (conj Hi Hs)).
Defined.

(** C5, as the code has it. An iteration whose harness run failed scores
    0.0 with no error record and leaves the engine and the files as they
    were; the loop then applies its usual checks to that score: it ends as
    converged when the target is not above 0.0, as stagnated when this was
    the second iteration in a row without improvement, and goes on to the
    next iteration otherwise. *)
Theorem failed_iteration_changes_nothing float_repr (harness : Harness)
    (self : ContinuousImprovement) (fs : FileSystem) :
  harness_failed (harness (S (iteration self))) ->
  run_evaluation (started self) (harness (S (iteration self))) = (zero, [])
  ∧ run_iteration float_repr harness self fs
    = (zero, get_zero_count (engine self), started self, fs)
  ∧ engine (started self) = engine self
  ∧ (∀ target remaining best stagnant last,
       (zero <= best)%Qc ->
       improvement_loop float_repr harness target (S remaining) self fs
                        best stagnant last
       = if leb target zero then (CONVERGED, started self, fs, Some zero)
         else if (max_stagnant_iterations <=? S stagnant)%nat
         then (STAGNATED, started self, fs, Some zero)
         else improvement_loop float_repr harness target remaining (started self) fs
                               best (S stagnant) (Some zero)).
Proof.
  intros Hfailed.
  assert (Heval : run_evaluation (started self) (harness (S (iteration self)))
                  = (zero, [])).
  { destruct (harness (S (iteration self))) as [|returncode output]; [done|].
    simpl in *. by destruct (Z.eqb_spec returncode 0). }
  assert (Hiter : run_iteration float_repr harness self fs
                  = (zero, get_zero_count (engine self), started self, fs)).
  { unfold run_iteration. cbn [iteration]. fold (started self). by rewrite Heval. }
  split; [done|]. split; [done|]. split; [done|].
  intros target remaining best stagnant last Hbest.
  rewrite improvement_loop_step, Hiter. cbn zeta. cbn [fst snd].
  assert (Hlt : ltb best zero = false) by by apply ltb_ge.
  unfold next_stagnant, next_best. by rewrite Hlt.
Qed.

Lemma failed_iteration_changes_nothing_witness :
  let self :=
    mkImprovement (add_rule (mkEngine "rules.json" ∅) 1 (decimal 10 0) (decimal 500 2)
                            (decimal 77 0)) 10 0 in
  run_iteration fraction_repr failing_harness self ∅
  = (zero, get_zero_count (engine self), started self, ∅).
Proof.
  intros self.
  apply (proj1 (proj2 (failed_iteration_changes_nothing fraction_repr failing_harness
                         self ∅ ltac:(discriminate)))).
Defined.

(** C5, counterexample: a harness that fails every time, a budget of 300
    iterations, target 95.0. The second iteration fails like the first, and
    no third iteration follows it: the loop has ended as stagnated. *)
Lemma failed_iterations_end_the_loop :
  let self :=
    mkImprovement (add_rule (mkEngine "rules.json" ∅) 1 (decimal 10 0) (decimal 500 2)
                            (decimal 77 0)) 10 0 in
  let r := run_continuous_improvement fraction_repr failing_harness self ∅ 300
                                      (decimal 950 1) in
  harness_failed (failing_harness 2%nat)
  ∧ exit r = STAGNATED
  ∧ iteration (final r) = 2%nat.
Proof.
  intros self r. split; [discriminate|]. split; vm_compute; reflexivity.
Qed.

(** * Further properties of the rule store *)

Lemma eqb_eq (x y : float) : eqb x y = true <-> x = y.
Proof.
  unfold eqb. rewrite Qeq_bool_iff. split; [apply Qc_is_canon | by intros ->].
Qed.

Lemma filter_all_inv {A} (P : A -> Prop) `{!∀ x, Decision (P x)} (l : list A) :
  length (filter P l) = length l -> Forall P l.
Proof.
  induction l as [|x l IH]; [constructor|].
  rewrite filter_cons. case_decide as HP; simpl.
  - intros Hlen. constructor; [done|]. apply IH. lia.
  - intros Hlen. pose proof (length_filter P l). lia.
Qed.

(** X1. [add_rule] adds exactly one rule when the key of the inputs is new
    and none when it is present; it never removes a key, and every other
    key keeps its amount. *)
Theorem add_rule_count (self : RulesEngine) (d : Z) (m r output : float) :
  (rules self !! _make_key d m r = None ->
   get_rule_count (add_rule self d m r output) = S (get_rule_count self))
  ∧ (is_Some (rules self !! _make_key d m r) ->
     get_rule_count (add_rule self d m r output) = get_rule_count self)
  ∧ keeps_keys self (add_rule self d m r output)
  ∧ (∀ k, k ≠ _make_key d m r ->
          rules (add_rule self d m r output) !! k = rules self !! k).
Proof.
  unfold get_rule_count, add_rule, keeps_keys. simpl. repeat split.
  - intros Hnone. by apply map_size_insert_None.
  - intros [v Hv]. by eapply map_size_insert_Some.
  - intros k Hk. rewrite lookup_insert. case_decide; [by eexists|done].
  - intros k Hk. by rewrite lookup_insert_ne.
Qed.

Lemma add_rule_count_witness :
  let self := mkEngine "rules.json" ∅ in
  let once := add_rule self 3 (decimal 1005 1) (decimal 450 1) (decimal 12033 2) in
  get_rule_count once = 1%nat
  ∧ get_rule_count (add_rule once 3 (decimal 10049 2) (decimal 45 0) zero) = 2%nat
  ∧ get_rule_count (add_rule once 3 (decimal 100504 3) (decimal 45 0) zero) = 1%nat.
Proof.
  intros self once. split; [|split].
  - apply (proj1 (add_rule_count self 3 (decimal 1005 1) (decimal 450 1)
                    (decimal 12033 2))).
    apply lookup_empty.
  - rewrite (proj1 (add_rule_count once 3 (decimal 10049 2) (decimal 45 0) zero)).
    + reflexivity.
    + unfold once, add_rule. simpl. rewrite lookup_insert_ne by key_neq.
      apply lookup_empty.
  - rewrite (proj1 (proj2 (add_rule_count once 3 (decimal 100504 3) (decimal 45 0) zero))).
    + reflexivity.
    + exists (decimal 12033 2). unfold once, add_rule. simpl.
      replace (_make_key 3 (decimal 100504 3) (decimal 45 0))
        with (_make_key 3 (decimal 1005 1) (decimal 450 1)).
      * apply lookup_insert_eq.
      * unfold _make_key.
        apply (f_equal2 pair); [apply (f_equal2 pair); [done|float_eq] | float_eq].
Defined.

(** X2. The rules at 0.0 are never more than the rules, so the count of
    completed rules, total minus zero, is an exact difference; and it is 0
    exactly when every stored amount is 0.0. *)
Theorem zero_count_bounds (self : RulesEngine) :
  (get_zero_count self ≤ get_rule_count self)%nat
  ∧ (non_default_count self + get_zero_count self = get_rule_count self)%nat
  ∧ (non_default_count self = O <-> ∀ k v, rules self !! k = Some v -> v = zero).
Proof.
  assert (Hle : (get_zero_count self ≤ get_rule_count self)%nat).
  { unfold get_zero_count, get_rule_count.
    etrans; [apply length_filter|]. by rewrite length_fmap, length_map_to_list. }
  split; [done|]. split; [unfold non_default_count; lia|].
  split.
  - intros Hnone k v Hkv. unfold non_default_count in Hnone.
    assert (Heq : get_zero_count self = get_rule_count self) by lia.
    unfold get_zero_count, get_rule_count in Heq.
    rewrite <- length_map_to_list, <- (length_fmap snd) in Heq.
    apply filter_all_inv in Heq.
    apply eqb_eq. eapply Forall_forall in Heq; [exact Heq|].
    apply list_elem_of_fmap. exists (k, v). split; [done|].
    by apply elem_of_map_to_list.
  - intros Hall. unfold non_default_count. rewrite zero_count_all_zero by done. lia.
Qed.

(** ** Learning from error cases *)

Lemma learned_rules_file (errors : list ErrorCase) (self : RulesEngine) :
  rules_file (foldl add_error_case self errors) = rules_file self.
Proof.
  revert self. induction errors as [|e errors IH]; intros self; [done|].
  simpl. by rewrite IH.
Qed.

Lemma learned_other (errors : list ErrorCase) (self : RulesEngine) (k : Key) :
  Forall (λ e, error_key e ≠ k) errors ->
  rules (foldl add_error_case self errors) !! k = rules self !! k.
Proof.
  revert self. induction errors as [|e errors IH]; intros self Hall; [done|].
  inversion Hall as [|? ? He Hrest]; subst. simpl.
  rewrite IH by done. unfold add_error_case. by apply rules_add_rule_other.
Qed.

Lemma learned_last (pre post : list ErrorCase) (e : ErrorCase) (self : RulesEngine) :
  Forall (λ e', error_key e' ≠ error_key e) post ->
  rules (foldl add_error_case self (pre ++ e :: post)) !! error_key e
  = Some (expected_output e).
Proof.
  intros Hpost. rewrite foldl_app. simpl.
  rewrite learned_other by done.
  unfold add_error_case, add_rule. simpl. apply lookup_insert_eq.
Qed.

Lemma save_rules_file float_repr (self : RulesEngine) (fs : FileSystem) :
  ∃ doc, save_rules float_repr self fs !! rules_file self = Some (RulesDocument doc)
         ∧ length doc = get_rule_count self.
Proof.
  eexists. split.
  - unfold save_rules, run_ops. simpl. apply lookup_insert_eq.
  - by rewrite length_fmap, length_map_to_list.
Qed.

(** X3. After the engine has learned a list of error cases, [predict] on
    the inputs of a case returns its expected output, unless a later case
    of the list has the same key (the later one then wins); keys of no case
    keep their amounts; and the store file holds one record per rule. *)
Theorem engine_learns_expected_outputs float_repr (self : RulesEngine)
    (fs : FileSystem) (pre post : list ErrorCase) (e : ErrorCase) :
  Forall (λ e', error_key e' ≠ error_key e) post ->
  let after := engine_update_rules_from_errors float_repr self (pre ++ e :: post) fs in
  predict after.1 (trip_duration_days (input e)) (miles_traveled (input e))
          (total_receipts_amount (input e)) = expected_output e
  ∧ (∀ k, Forall (λ e', error_key e' ≠ k) (pre ++ e :: post) ->
          rules after.1 !! k = rules self !! k)
  ∧ (∃ doc, after.2 !! rules_file self = Some (RulesDocument doc)
            ∧ length doc = get_rule_count after.1).
Proof.
  intros Hpost after. unfold after, engine_update_rules_from_errors. simpl.
  split; [|split].
  - unfold predict. fold (error_key e). by rewrite learned_last.
  - intros k Hk. by apply learned_other.
  - rewrite <- (learned_rules_file (pre ++ e :: post) self). apply save_rules_file.
Qed.

(** Two cases whose inputs round to one key: the later expected output is
    the one predicted. *)
Lemma engine_learns_expected_outputs_witness :
  let first := mkError (mkInput 7 (decimal 1033 0) (decimal 101303 2))
                       (decimal 211983 2) zero (decimal 211983 2) 669 in
  let second := mkError (mkInput 7 (decimal 1033004 3) (decimal 101303 2))
                        (decimal 5 0) zero (decimal 5 0) 670 in
  let after :=
    engine_update_rules_from_errors fraction_repr (mkEngine "rules.json" ∅)
                                    [first; second] ∅ in
  predict after.1 7 (decimal 1033004 3) (decimal 101303 2) = decimal 5 0
  ∧ predict after.1 7 (decimal 1033 0) (decimal 101303 2) = decimal 5 0.
Proof.
  intros first second after. split.
  - apply (proj1 (engine_learns_expected_outputs fraction_repr (mkEngine "rules.json" ∅)
                    ∅ [first] [] second (Forall_nil_2 _))).
  - replace (predict after.1 7 (decimal 1033 0) (decimal 101303 2))
      with (predict after.1 7 (decimal 1033004 3) (decimal 101303 2)).
    + apply (proj1 (engine_learns_expected_outputs fraction_repr
                      (mkEngine "rules.json" ∅) ∅ [first] [] second (Forall_nil_2 _))).
    + assert (Hkey : _make_key 7 (decimal 1033004 3) (decimal 101303 2)
                     = _make_key 7 (decimal 1033 0) (decimal 101303 2)).
      { unfold _make_key.
        apply (f_equal2 pair); [apply (f_equal2 pair); [done|float_eq] | done]. }
      unfold predict. by rewrite Hkey.
Defined.

(** ** Saving and loading again *)

Lemma store_all_foldr (kvs : list (Key * float)) (acc : gmap Key float) :
  store_all kvs acc = foldr (λ kv, <[kv.1 := kv.2]>) acc (reverse kvs).
Proof.
  revert acc. induction kvs as [|kv kvs IH]; intros acc; [done|].
  rewrite reverse_cons, foldr_app. simpl. apply IH.
Qed.

Lemma load_rules_completes (self : RulesEngine) (fs : FileSystem)
    (items : list (string * JsonValue)) (kvs : list (Key * float)) :
  fs !! rules_file self = Some (RulesDocument items) ->
  Forall2 (λ item kv, decode_record item = Some kv) items kvs ->
  load_rules self fs = Some (mkEngine (rules_file self) (store_all kvs ∅)).
Proof.
  intros Hfile Hdec. unfold load_rules.
  by rewrite Hfile, (load_items_completes _ kvs).
Qed.

Lemma load_after_save float_repr (reader self : RulesEngine) (fs : FileSystem) :
  rules_file reader = rules_file self ->
  (∀ k v, rules self !! k = Some v -> py_eval (str_key float_repr k) = EvalKey k) ->
  load_rules reader (save_rules float_repr self fs) = Some self.
Proof.
  intros Hname Heval.
  assert (Hfile : save_rules float_repr self fs !! rules_file reader
                  = Some (RulesDocument
                            ((λ kv, (str_key float_repr kv.1, JNumber kv.2))
                               <$> map_to_list (rules self)))).
  { rewrite Hname. unfold save_rules, run_ops. simpl. apply lookup_insert_eq. }
  rewrite (load_rules_completes reader _ _ (map_to_list (rules self)) Hfile).
  - rewrite store_all_foldr.
    change (foldr _ ∅ (reverse (map_to_list (rules self))))
      with (list_to_map (M := gmap Key float) (reverse (map_to_list (rules self)))).
    rewrite <- (list_to_map_proper (map_to_list (rules self))).
    + rewrite list_to_map_to_list, Hname. by destruct self.
    + apply NoDup_fst_map_to_list.
    + symmetry. apply reverse_Permutation.
  - apply Forall2_fmap_l, Forall_Forall2_diag, Forall_forall.
    intros [k v] Hin. apply elem_of_map_to_list in Hin.
    unfold decode_record. simpl. by rewrite (Heval k v Hin).
Qed.

(** X4. A store that was saved loads back as the same store, provided
    [eval] reads the text of every key back as that key. *)
Theorem save_then_load float_repr (self : RulesEngine) (fs : FileSystem) :
  (∀ k v, rules self !! k = Some v -> py_eval (str_key float_repr k) = EvalKey k) ->
  load_rules self (save_rules float_repr self fs) = Some self.
Proof. intros Heval. by apply load_after_save. Qed.

Lemma save_then_load_witness :
  let self := add_rule (mkEngine "rules.json" ∅) 1 (decimal 470 1) (decimal 1797 2)
                       (decimal 125 1) in
  load_rules self (save_rules cents_repr self ∅) = Some self.
Proof.
  intros self. apply (save_then_load cents_repr self ∅).
  intros k v Hkv. unfold self, add_rule in Hkv. simpl in Hkv.
  apply lookup_insert_Some in Hkv as [[<- _]|[_ Hkv]].
  - vm_compute. reflexivity.
  - by rewrite lookup_empty in Hkv.
Defined.

(** ** Seeding: what happens to memory and to the files *)

Lemma add_cases_rules_file (cases : list ManifestEntry) (self : RulesEngine) :
  rules_file (add_cases self cases).1 = rules_file self.
Proof.
  revert self. induction cases as [|[d m r|] cases IH]; intros self; simpl; [done| |done].
  by rewrite IH.
Qed.

Lemma add_cases_stops (good rest : list ManifestEntry) (self : RulesEngine) :
  BadEntry ∉ good ->
  add_cases self (good ++ BadEntry :: rest) = ((add_cases self good).1, false).
Proof.
  revert self. induction good as [|c good IH]; intros self Hbad; [done|].
  apply not_elem_of_cons in Hbad as [Hc Hbad].
  destruct c as [d m r|]; [|done]. simpl. by apply IH.
Qed.

Lemma add_cases_completes (cases : list ManifestEntry) (self : RulesEngine) :
  BadEntry ∉ cases -> (add_cases self cases).2 = true.
Proof.
  revert self. induction cases as [|c cases IH]; intros self Hbad; [done|].
  apply not_elem_of_cons in Hbad as [Hc Hbad].
  destruct c as [d m r|]; [|done]. simpl. by apply IH.
Qed.

(** X5. Seeding touches memory and files together only when the whole
    manifest is read: without a readable manifest nothing changes; a
    manifest with an entry that lacks its fields leaves the cases before it
    in memory and writes no file; a manifest of proper cases ends with the
    store file holding one record per rule. *)
Theorem initialize_memory_and_files float_repr (self : RulesEngine)
    (file : string) (fs : FileSystem) :
  (fs !! file = None ∨ fs !! file = Some Incomplete ->
   initialize_from_private_cases float_repr self file fs = (self, fs))
  ∧ (∀ good rest,
       fs !! file = Some (CaseList (good ++ BadEntry :: rest)) ->
       BadEntry ∉ good ->
       initialize_from_private_cases float_repr self file fs
       = ((add_cases self good).1, fs))
  ∧ (∀ cases,
       fs !! file = Some (CaseList cases) ->
       BadEntry ∉ cases ->
       let seeded := initialize_from_private_cases float_repr self file fs in
       seeded.1 = (add_cases self cases).1
       ∧ ∃ doc, seeded.2 !! rules_file self = Some (RulesDocument doc)
                ∧ length doc = get_rule_count seeded.1).
Proof.
  unfold initialize_from_private_cases. split; [|split].
  - by intros [-> | ->].
  - intros good rest -> Hbad. by rewrite add_cases_stops.
  - intros cases -> Hbad.
    pose proof (add_cases_completes cases self Hbad) as Hdone.
    pose proof (add_cases_rules_file cases self) as Hfile.
    destruct (add_cases self cases) as [self' done']. simpl in *. subst done'.
    split; [done|]. rewrite <- Hfile. apply save_rules_file.
Qed.

Lemma initialize_memory_and_files_witness :
  let self := mkEngine "rules.json" ∅ in
  let first := CaseEntry 1 (decimal 10 0) (decimal 500 2) in
  let fs : FileSystem :=
    {[ private_cases_file := CaseList [first; BadEntry; CaseEntry 2 (decimal 20 0) zero] ]} in
  initialize_from_private_cases fraction_repr self private_cases_file ∅ = (self, ∅)
  ∧ initialize_from_private_cases fraction_repr self private_cases_file fs
    = (add_rule self 1 (decimal 10 0) (decimal 500 2) zero, fs).
Proof.
  intros self first fs. split.
  - apply (proj1 (initialize_memory_and_files fraction_repr self private_cases_file ∅)).
    left. apply lookup_empty.
  - apply (proj1 (proj2 (initialize_memory_and_files fraction_repr self
                           private_cases_file fs))
             [first] [CaseEntry 2 (decimal 20 0) zero]).
    + apply lookup_singleton_eq.
    + intros Hin. apply list_elem_of_singleton in Hin. discriminate Hin.
Defined.

(** * Further properties of the improvement loop *)

Lemma keeps_keys_refl (e : RulesEngine) : keeps_keys e e.
Proof. by split. Qed.

Lemma keeps_keys_trans (e1 e2 e3 : RulesEngine) :
  keeps_keys e1 e2 -> keeps_keys e2 e3 -> keeps_keys e1 e3.
Proof. intros [Hf1 Hk1] [Hf2 Hk2]. split; [congruence|]. intros k Hk. eauto. Qed.

Lemma add_rule_keeps_keys (self : RulesEngine) d m r output :
  keeps_keys self (add_rule self d m r output).
Proof.
  split; [done|]. intros k Hk. unfold add_rule. simpl.
  rewrite lookup_insert. case_decide; [by eexists|done].
Qed.

Lemma learned_keeps_keys (errors : list ErrorCase) (self : RulesEngine) :
  keeps_keys self (foldl add_error_case self errors).
Proof.
  revert self. induction errors as [|e errors IH]; intros self; [apply keeps_keys_refl|].
  simpl. eapply keeps_keys_trans; [|apply IH]. apply add_rule_keeps_keys.
Qed.

Lemma add_cases_keeps_keys (cases : list ManifestEntry) (self : RulesEngine) :
  keeps_keys self (add_cases self cases).1.
Proof.
  revert self.
  induction cases as [|[d m r|] cases IH]; intros self; simpl;
    [apply keeps_keys_refl| |apply keeps_keys_refl].
  eapply keeps_keys_trans; [|apply IH]. apply add_rule_keeps_keys.
Qed.

Lemma initialize_keeps_keys float_repr (self : RulesEngine) (file : string)
    (fs : FileSystem) :
  keeps_keys self (initialize_from_private_cases float_repr self file fs).1.
Proof.
  unfold initialize_from_private_cases.
  destruct (fs !! file) as [[|[|? ?]|cases]|]; simpl; try apply keeps_keys_refl.
  pose proof (add_cases_keeps_keys cases self) as Hkeeps.
  by destruct (add_cases self cases) as [self' []].
Qed.

Section RunFacts.

Variable float_repr : float -> string.
Variable harness : Harness.

(** The selection of an iteration is what the engine learns in it. *)
Lemma run_iteration_engine (self : ContinuousImprovement) (fs : FileSystem) :
  engine (run_iteration float_repr harness self fs).1.2
  = foldl add_error_case (engine self)
          (run_evaluation (started self) (harness (S (iteration self)))).2.
Proof.
  unfold run_iteration, started. simpl.
  destruct (run_evaluation _ _) as [score [|e errors]]; reflexivity.
Qed.

Lemma run_iteration_top_n (self : ContinuousImprovement) (fs : FileSystem) :
  top_n_errors (run_iteration float_repr harness self fs).1.2 = top_n_errors self.
Proof.
  unfold run_iteration. simpl.
  destruct (run_evaluation _ _) as [score [|e errors]]; reflexivity.
Qed.

(** What one run of the loop keeps and how far it counts. *)
Lemma loop_keeps (target_score : float) (remaining : nat)
    (self : ContinuousImprovement) (fs : FileSystem)
    (best_score : float) (stagnant : nat) (last : option float) :
  let looped := improvement_loop float_repr harness target_score remaining self fs
                                 best_score stagnant last in
  keeps_keys (engine self) (engine looped.1.1.2)
  ∧ top_n_errors looped.1.1.2 = top_n_errors self
  ∧ (iteration self ≤ iteration looped.1.1.2 ≤ iteration self + remaining)%nat
  ∧ (looped.1.1.1 = EXHAUSTED -> iteration looped.1.1.2 = (iteration self + remaining)%nat).
Proof.
  revert self fs best_score stagnant last.
  induction remaining as [|remaining IH]; intros self fs best stagnant last.
  - simpl. split; [apply keeps_keys_refl|]. repeat split; try done; lia.
  - cbn zeta. rewrite improvement_loop_step. cbn zeta.
    pose proof (run_iteration_engine self fs) as He.
    pose proof (run_iteration_top_n self fs) as Ht.
    pose proof (run_iteration_iteration float_repr harness self fs) as Hi.
    set (it := run_iteration float_repr harness self fs) in *.
    assert (Hk : keeps_keys (engine self) (engine it.1.2)).
    { rewrite He. apply learned_keeps_keys. }
    destruct (leb target_score _).
    { cbn [fst snd]. rewrite Hi. split; [exact Hk|]. repeat split; try done; lia. }
    destruct (_ <=? _)%nat.
    { cbn [fst snd]. rewrite Hi. split; [exact Hk|]. repeat split; try done; lia. }
    specialize (IH it.1.2 it.2 (next_best best it.1.1.1)
                   (next_stagnant best it.1.1.1 stagnant) (Some it.1.1.1)).
    cbn zeta in IH. destruct IH as (IHk & IHt & IHi & IHe).
    split; [by eapply keeps_keys_trans|]. split; [congruence|].
    split; [lia|]. intros Hex. rewrite (IHe Hex). lia.
Qed.

(** How the loop can end: with the target reached by the last score, or
    with the last score below it after the window has filled. *)
Lemma loop_exit (target_score : float) (remaining : nat)
    (self : ContinuousImprovement) (fs : FileSystem)
    (best_score : float) (stagnant : nat) (last : option float) :
  let looped := improvement_loop float_repr harness target_score remaining self fs
                                 best_score stagnant last in
  (looped.1.1.1 = CONVERGED ->
   ∃ score, looped.2 = Some score ∧ (target_score <= score)%Qc)
  ∧ (looped.1.1.1 = STAGNATED ->
     ∃ score, looped.2 = Some score ∧ (score < target_score)%Qc
       ∧ (iteration self + (max_stagnant_iterations - stagnant)
          ≤ iteration looped.1.1.2)%nat)
  ∧ ((0 < remaining)%nat -> is_Some looped.2)
  ∧ (remaining = O -> looped.2 = last).
Proof.
  revert self fs best_score stagnant last.
  induction remaining as [|remaining IH]; intros self fs best stagnant last.
  - simpl. repeat split; try done. lia.
  - cbn zeta. rewrite improvement_loop_step. cbn zeta.
    pose proof (run_iteration_iteration float_repr harness self fs) as Hi.
    set (it := run_iteration float_repr harness self fs) in *.
    destruct (leb target_score _) eqn:Htarget.
    { simpl. repeat split; try done.
      - intros _. eexists. split; [done|]. by apply leb_le. }
    assert (Hbelow : (it.1.1.1 < target_score)%Qc).
    { apply ltb_lt. unfold ltb. unfold leb in Htarget. by rewrite Htarget. }
    assert (Hnext : (next_stagnant best it.1.1.1 stagnant ≤ S stagnant)%nat)
      by (unfold next_stagnant; destruct (ltb _ _); lia).
    destruct (_ <=? _)%nat eqn:Hwindow.
    { apply Nat.leb_le in Hwindow. unfold max_stagnant_iterations in *.
      cbn [fst snd]. repeat split; try done.
      - intros _. eexists. split; [done|]. split; [done|]. lia. }
    apply Nat.leb_gt in Hwindow.
    specialize (IH it.1.2 it.2 (next_best best it.1.1.1)
                   (next_stagnant best it.1.1.1 stagnant) (Some it.1.1.1)).
    cbn zeta in IH. destruct IH as (IHc & IHs & IHl & IH0).
    split; [done|]. split; [|split; [|done]].
    + intros Hst. destruct (IHs Hst) as (score & Hscore & Hlt & Hcount).
      exists score. split; [done|]. split; [done|].
      unfold max_stagnant_iterations in *. lia.
    + intros _. destruct remaining as [|remaining'].
      * rewrite IH0 by done. by eexists.
      * apply IHl. lia.
Qed.

End RunFacts.

Lemma run_decompose float_repr (harness : Harness) (self : ContinuousImprovement)
    (fs : FileSystem) (max_iterations : Z) (target_score : float) :
  ∃ self0 fs0,
    keeps_keys (engine self) (engine self0)
    ∧ top_n_errors self0 = top_n_errors self
    ∧ iteration self0 = iteration self
    ∧ ∀ looped,
        looped = improvement_loop float_repr harness target_score
                   (Z.to_nat max_iterations) self0 fs0 zero O None ->
        run_continuous_improvement float_repr harness self fs max_iterations target_score
        = mkRun looped.1.1.1 looped.1.1.2 looped.1.2 looped.2
                (closing_report looped.1.1.2 looped.2).
Proof.
  unfold run_continuous_improvement.
  destruct (if (get_rule_count (engine self) =? 0)%nat
            then initialize_rules float_repr self fs else (self, fs))
    as [self0 fs0] eqn:Hinit.
  exists self0, fs0.
  assert (Hself0 : keeps_keys (engine self) (engine self0)
                   ∧ top_n_errors self0 = top_n_errors self
                   ∧ iteration self0 = iteration self).
  { destruct (get_rule_count (engine self) =? 0)%nat.
    - unfold initialize_rules in Hinit.
      pose proof (initialize_keeps_keys float_repr (engine self) private_cases_file fs)
        as Hkeeps.
      destruct (initialize_from_private_cases _ _ _ _) as [engine' fs'].
      by inversion Hinit; subst.
    - inversion Hinit; subst. split; [apply keeps_keys_refl|done]. }
  destruct Hself0 as (Hk & Ht & Hi). repeat split; try done.
  - apply Hk.
  - apply Hk.
  - intros looped ->.
    by destruct (improvement_loop _ _ _ _ _ _ _ _ _) as [[[e s] f] sc].
Qed.

(** X6. A whole run never removes a rule: every key of the store before
    [run_continuous_improvement] is a key of the store after it; the store
    file name and the number of errors taken per iteration do not change. *)
Theorem run_never_forgets float_repr (harness : Harness)
    (self : ContinuousImprovement) (fs : FileSystem)
    (max_iterations : Z) (target_score : float) :
  let r := run_continuous_improvement float_repr harness self fs max_iterations
                                      target_score in
  (∀ k, is_Some (rules (engine self) !! k) -> is_Some (rules (engine (final r)) !! k))
  ∧ rules_file (engine (final r)) = rules_file (engine self)
  ∧ top_n_errors (final r) = top_n_errors self.
Proof.
  intros r.
  destruct (run_decompose float_repr harness self fs max_iterations target_score)
    as (self0 & fs0 & Hk & Ht & Hi & Hrun).
  specialize (Hrun _ eq_refl). fold r in Hrun. rewrite Hrun. simpl.
  destruct (loop_keeps float_repr harness target_score (Z.to_nat max_iterations)
              self0 fs0 zero O None) as (Hk' & Ht' & _).
  cbn zeta in *.
  destruct (keeps_keys_trans _ _ _ Hk Hk') as [Hfile Hkeys].
  split; [exact Hkeys|]. split; [exact Hfile|]. congruence.
Qed.

(** X7. What the way a run ended tells: it never runs more iterations than
    its budget, and exactly the budget when the budget ended it; when the
    target ended it, the last score is at or above the target; when
    stagnation ended it, the last score is below the target and at least
    two iterations ran. *)
Theorem run_exit_meaning float_repr (harness : Harness)
    (self : ContinuousImprovement) (fs : FileSystem)
    (max_iterations : Z) (target_score : float) :
  let r := run_continuous_improvement float_repr harness self fs max_iterations
                                      target_score in
  (iteration self ≤ iteration (final r) ≤ iteration self + Z.to_nat max_iterations)%nat
  ∧ (exit r = EXHAUSTED ->
     iteration (final r) = (iteration self + Z.to_nat max_iterations)%nat)
  ∧ (exit r = CONVERGED ->
     ∃ score, last_score r = Some score ∧ (target_score <= score)%Qc)
  ∧ (exit r = STAGNATED ->
     ∃ score, last_score r = Some score ∧ (score < target_score)%Qc
       ∧ (iteration self + 2 ≤ iteration (final r))%nat).
Proof.
  intros r.
  destruct (run_decompose float_repr harness self fs max_iterations target_score)
    as (self0 & fs0 & Hk & Ht & Hi & Hrun).
  specialize (Hrun _ eq_refl). fold r in Hrun. rewrite Hrun. simpl.
  destruct (loop_keeps float_repr harness target_score (Z.to_nat max_iterations)
              self0 fs0 zero O None) as (_ & _ & Hcount & Hex).
  destruct (loop_exit float_repr harness target_score (Z.to_nat max_iterations)
              self0 fs0 zero O None) as (Hconv & Hstag & _).
  cbn zeta in *. rewrite Hi in *.
  split; [exact Hcount|]. split; [exact Hex|]. split; [exact Hconv|].
  intros Hst. destruct (Hstag Hst) as (score & Hscore & Hlt & Hn).
  exists score. unfold max_stagnant_iterations in Hn.
  split; [done|]. split; [done|]. simpl in Hn. lia.
Qed.

Lemma run_exit_meaning_witness :
  let self := mkImprovement (mkEngine "rules.json" ∅) 10 0 in
  let r := run_continuous_improvement fraction_repr failing_harness self ∅ 300
                                      (decimal 950 1) in
  ∃ score, last_score r = Some score ∧ (score < decimal 950 1)%Qc
    ∧ (iteration self + 2 ≤ iteration (final r))%nat.
Proof.
  intros self r.
  apply (proj2 (proj2 (proj2 (run_exit_meaning fraction_repr failing_harness self ∅ 300
                                (decimal 950 1))))).
  vm_compute. reflexivity.
Defined.

(** X8. How a run ends after its loop. With a budget of zero or less no
    iteration runs and the closing report raises [NameError], having no
    score to print. With a positive budget the closing report raises
    [ZeroDivisionError] when the store is empty, and otherwise prints the
    last score and the share of rules that are not 0.0. *)
Theorem run_ending float_repr (harness : Harness)
    (self : ContinuousImprovement) (fs : FileSystem)
    (max_iterations : Z) (target_score : float) :
  let r := run_continuous_improvement float_repr harness self fs max_iterations
                                      target_score in
  (max_iterations <= 0 ->
   exit r = EXHAUSTED ∧ iteration (final r) = iteration self ∧ ending r = NameError)
  ∧ (0 < max_iterations -> get_rule_count (engine (final r)) = O ->
     ending r = ZeroDivisionError)
  ∧ (0 < max_iterations -> get_rule_count (engine (final r)) ≠ O ->
     ∃ score, last_score r = Some score
       ∧ ending r = Reported score
           (of_int (Z.of_nat (non_default_count (engine (final r))))
            / of_int (Z.of_nat (get_rule_count (engine (final r)))) * of_int 100)%Qc).
Proof.
  intros r.
  destruct (run_decompose float_repr harness self fs max_iterations target_score)
    as (self0 & fs0 & Hk & Ht & Hi & Hrun).
  specialize (Hrun _ eq_refl). fold r in Hrun. rewrite Hrun. simpl.
  destruct (loop_exit float_repr harness target_score (Z.to_nat max_iterations)
              self0 fs0 zero O None) as (_ & _ & Hsome & Hnone).
  cbn zeta in *.
  split; [|split].
  - intros Hmax. replace (Z.to_nat max_iterations) with O in * by lia.
    simpl. by rewrite Hi.
  - intros Hmax Hrules. destruct Hsome as [score Hscore]; [lia|].
    rewrite Hscore. unfold closing_report. by rewrite Hrules.
  - intros Hmax Hrules. destruct Hsome as [score Hscore]; [lia|].
    rewrite Hscore. exists score. split; [done|]. unfold closing_report.
    by destruct (Nat.eqb_spec (get_rule_count
      (engine (improvement_loop float_repr harness target_score
                 (Z.to_nat max_iterations) self0 fs0 zero 0 None).1.1.2)) 0).
Qed.

(** An empty store, no manifest and a harness that reports no error case:
    the run ends in a division by zero; with a budget of zero, in a
    [NameError]. *)
Lemma run_ending_witness :
  let self := mkImprovement (mkEngine "rules.json" ∅) 10 0 in
  ending (run_continuous_improvement fraction_repr steady_harness self ∅ 300
                                     (decimal 950 1)) = ZeroDivisionError
  ∧ ending (run_continuous_improvement fraction_repr steady_harness self ∅ 0
                                       (decimal 950 1)) = NameError.
Proof.
  intros self. split.
  - apply (proj1 (proj2 (run_ending fraction_repr steady_harness self ∅ 300
                           (decimal 950 1)))); [lia|].
    vm_compute. reflexivity.
  - apply (proj1 (run_ending fraction_repr steady_harness self ∅ 0 (decimal 950 1))).
    lia.
Defined.

(** X9. What an iteration learns: when the evaluation of an iteration
    selects a list of error cases, the engine after the iteration predicts
    the expected output of each selected case on its inputs, unless a later
    selected case has the same key, and the store file holds one record per
    rule. *)
Theorem iteration_learns float_repr (harness : Harness)
    (self : ContinuousImprovement) (fs : FileSystem)
    (score : float) (pre post : list ErrorCase) (e : ErrorCase) :
  run_evaluation (started self) (harness (S (iteration self)))
  = (score, pre ++ e :: post) ->
  Forall (λ e', error_key e' ≠ error_key e) post ->
  let it := run_iteration float_repr harness self fs in
  it.1.1.1 = score
  ∧ predict (engine it.1.2) (trip_duration_days (input e)) (miles_traveled (input e))
            (total_receipts_amount (input e)) = expected_output e
  ∧ (∃ doc, it.2 !! rules_file (engine self) = Some (RulesDocument doc)
            ∧ length doc = get_rule_count (engine it.1.2)).
Proof.
  intros Heval Hpost it. unfold it.
  split; [by rewrite run_iteration_score, Heval|].
  split.
  - rewrite run_iteration_engine, Heval. simpl.
    unfold predict. fold (error_key e). by rewrite learned_last.
  - unfold run_iteration. cbn [iteration]. fold (started self). rewrite Heval.
    destruct (pre ++ e :: post) as [|e0 errors] eqn:Herrors;
      [by destruct pre|].
    simpl. rewrite <- (learned_rules_file (e0 :: errors) (engine self)).
    apply save_rules_file.
Qed.

Lemma iteration_learns_witness :
  let self := mkImprovement (mkEngine "rules.json" ∅) 10 0 in
  let it := run_iteration fraction_repr (λ _, Exited 0 tied_report) self ∅ in
  predict (engine it.1.2) 2 (decimal 30 0) (decimal 1250 2) = decimal 500 2.
Proof.
  intros self it.
  apply (proj1 (proj2 (iteration_learns fraction_repr (λ _, Exited 0 tied_report) self ∅
    zero []
    [mkError (mkInput 1 (decimal 10 0) (decimal 500 2))
             (decimal 500 2) (decimal 0 2) (decimal 500 2) 3]
    (mkError (mkInput 2 (decimal 30 0) (decimal 1250 2))
             (decimal 500 2) (decimal 0 2) (decimal 500 2) 7)
    ltac:(vm_compute; reflexivity)
    ltac:(apply Forall_cons; split; [key_neq | apply Forall_nil_2])))).
Defined.

(** * Further properties of the report parser *)

Lemma scan_no_header (lines : list string) (current_case : option Report.PendingCase)
    (errors : list ErrorCase) :
  Forall (λ line, is_header line = false) lines ->
  Report.scan lines false current_case errors = Some errors.
Proof.
  induction 1 as [|line lines Hline _ IH]; [done|].
  rewrite scan_unfold, Hline. cbn [andb]. by destruct current_case.
Qed.

(** X10. Records come from the error section only: a report none of whose
    lines contains the header of the section yields no record, whatever
    case and metrics lines it has, and an evaluation on it learns nothing. *)
Theorem no_header_no_records (eval_output : string) :
  Forall (λ line, is_header line = false) (Text.split Text.newline eval_output) ->
  Report.parse_errors eval_output = Some []
  ∧ ∀ self, (run_evaluation self (Exited 0 eval_output)).2 = [].
Proof.
  intros Hlines.
  assert (Hparse : Report.parse_errors eval_output = Some [])
    by by apply scan_no_header.
  split; [done|]. intros self. unfold run_evaluation. simpl.
  unfold Report.extract_errors_from_eval_output. rewrite Hparse.
  assert (Hnone : Report.top_n [] (top_n_errors self) = []).
  { unfold Report.top_n, Report.slice_to. simpl. by destruct (_ <? _); rewrite take_nil. }
  rewrite Hnone. by destruct (Report.extract_score_from_output eval_output).
Qed.

Lemma no_header_no_records_witness :
  Report.parse_errors
    ("    Case 7: 2 days, 30 miles, $12.50 receipts" +:+ br +:+
     "      Expected: $5.00, Got: $0.00, Error: $5.00") = Some [].
Proof.
  refine (proj1 (no_header_no_records _ _)).
  match goal with
  | |- Forall _ ?lines =>
      let l := eval vm_compute in lines in change lines with l
  end.
  repeat (apply Forall_cons; split; [vm_compute; reflexivity|]). apply Forall_nil_2.
Defined.

Lemma scan_stops_at_marker (pre post post' : list string) (marker : string)
    (current_case : option Report.PendingCase) (errors : list ErrorCase) :
  is_header marker = false -> is_marker marker = true ->
  Report.scan (pre ++ marker :: post) true current_case errors
  = Report.scan (pre ++ marker :: post') true current_case errors.
Proof.
  intros Hh Hm. revert current_case errors.
  induction pre as [|line pre IH]; intros cur errors.
  - simpl app. by rewrite !scan_unfold, Hh, Hm.
  - simpl app. rewrite !scan_unfold.
    destruct (is_header line); [apply IH|]. cbn [andb].
    destruct (is_marker line); [done|].
    destruct (is_case_line line).
    { destruct (Report.parse_case_line line cur); [apply IH|done]. }
    destruct cur as [pending|]; [|apply IH].
    destruct (_ && _); [|apply IH].
    destruct (Report.parse_values_line line pending) as [[error_case|]|];
      [apply IH|apply IH|done].
Qed.

(** X11. Nothing after the closing marker of the error section is read:
    once a header line has been met, the lines that follow the first marker
    line do not influence the result, be they case lines, further headers
    or lines that would make a conversion fail. *)
Theorem lines_after_marker_ignored (before pre post post' : list string)
    (header marker : string) (in_error_section : bool)
    (current_case : option Report.PendingCase) (errors : list ErrorCase) :
  is_header header = true ->
  is_header marker = false -> is_marker marker = true ->
  Report.scan (before ++ header :: pre ++ marker :: post)
              in_error_section current_case errors
  = Report.scan (before ++ header :: pre ++ marker :: post')
                in_error_section current_case errors.
Proof.
  intros Hheader Hh Hm. revert in_error_section current_case errors.
  induction before as [|line before IH]; intros in_sec cur errors.
  - simpl app. rewrite !scan_unfold, Hheader. by apply scan_stops_at_marker.
  - simpl app. rewrite !scan_unfold.
    destruct (is_header line); [apply IH|].
    destruct (in_sec && is_marker line); [done|].
    destruct (in_sec && is_case_line line).
    { destruct (Report.parse_case_line line cur); [apply IH|done]. }
    destruct cur as [pending|]; [|apply IH].
    destruct (_ && _); [|apply IH].
    destruct (Report.parse_values_line line pending) as [[error_case|]|];
      [apply IH|apply IH|done].
Qed.

Lemma lines_after_marker_ignored_witness :
  let header := "  Check these high-error cases:" in
  let marker := "  " +:+ Report.memo_sign +:+ " Tips" in
  let case := "    Case 7: 2 days, 30 miles, $12.50 receipts" in
  let metrics := "      Expected: $5.00, Got: $0.00, Error: $5.00" in
  Report.scan ([] ++ header :: [case; metrics] ++ marker
                 :: ["    Case 8: 1 days, 1.2.3 miles, $1.00 receipts"]) false None []
  = Report.scan ([] ++ header :: [case; metrics] ++ marker :: []) false None [].
Proof.
  intros header marker case metrics.
  apply (lines_after_marker_ignored [] [case; metrics] _ [] header marker);
    vm_compute; reflexivity.
Defined.

(** ** Numbers read from the report *)

Lemma decimal_nonneg (m : Z) (e : nat) : 0 <= m -> (zero <= decimal m e)%Qc.
Proof.
  intros Hm. unfold Qcle, zero, decimal, Q2Qc. cbn [this].
  rewrite !Qred_correct. unfold Qle. simpl. lia.
Qed.

Lemma of_int_nonneg (z : Z) : 0 <= z -> (zero <= of_int z)%Qc.
Proof.
  intros Hz. unfold Qcle, zero, of_int, Q2Qc. cbn [this].
  rewrite !Qred_correct. unfold Qle. simpl. lia.
Qed.

Lemma digits_value_nonneg (s : string) (acc : Z) :
  0 <= acc -> 0 <= Text.digits_value acc s.
Proof.
  revert acc. induction s as [|c s IH]; intros acc Hacc; [done|].
  simpl. apply IH. unfold Text.digit_value. lia.
Qed.

Lemma py_int_nonneg (s : string) : 0 <= Text.py_int s.
Proof. by apply digits_value_nonneg. Qed.

Lemma py_float_nonneg (s : string) (v : float) :
  Text.py_float s = Some v -> (zero <= v)%Qc.
Proof.
  unfold Text.py_float.
  destruct (Text.drop _ s) as [|c frac].
  - destruct (Text.take _ s); [done|]. intros [= <-].
    apply of_int_nonneg, py_int_nonneg.
  - destruct (_ && _); [|done]. intros [= <-].
    apply decimal_nonneg, digits_value_nonneg, py_int_nonneg.
Qed.

Lemma parse_case_line_nonneg (line : string) (cur cur' : option Report.PendingCase) :
  (∀ p, cur = Some p -> 0 <= p.1 ∧ nonnegative_input p.2) ->
  Report.parse_case_line line cur = Some cur' ->
  ∀ p, cur' = Some p -> 0 <= p.1 ∧ nonnegative_input p.2.
Proof.
  intros Hcur. unfold Report.parse_case_line.
  destruct (Text.search _ line) as [[|g1 [|g2 [|g3 [|g4 [|]]]]]|];
    try (intros [= <-]; exact Hcur).
  destruct (Text.py_float g3) as [miles|] eqn:Hm; [|done].
  destruct (Text.py_float g4) as [receipts|] eqn:Hr; [|done].
  intros [= <-] p [= <-]. simpl.
  split; [apply py_int_nonneg|]. split; [apply py_int_nonneg|].
  split; by eapply py_float_nonneg.
Qed.

Lemma parse_values_line_nonneg (line : string) (pending : Report.PendingCase)
    (error_case : ErrorCase) :
  0 <= pending.1 ∧ nonnegative_input pending.2 ->
  Report.parse_values_line line pending = Some (Some error_case) ->
  nonnegative_record error_case.
Proof.
  intros [Hnum Hinput]. unfold Report.parse_values_line.
  destruct (Text.search _ line) as [[|g1 [|g2 [|g3 [|]]]]|]; try done.
  destruct (Text.py_float g1) as [expected|] eqn:H1; [|done].
  destruct (Text.py_float g2) as [actual|] eqn:H2; [|done].
  destruct (Text.py_float g3) as [magnitude|] eqn:H3; [|done].
  intros [= <-]. unfold nonnegative_record. simpl.
  repeat split; try done; try apply Hinput; by eapply py_float_nonneg.
Qed.

Lemma scan_nonneg (lines : list string) (in_error_section : bool)
    (current_case : option Report.PendingCase) (errors out : list ErrorCase) :
  (∀ p, current_case = Some p -> 0 <= p.1 ∧ nonnegative_input p.2) ->
  Forall nonnegative_record errors ->
  Report.scan lines in_error_section current_case errors = Some out ->
  Forall nonnegative_record out.
Proof.
  revert in_error_section current_case errors.
  induction lines as [|line lines IH]; intros in_sec cur errors Hcur Herrors Hscan.
  - by inversion Hscan; subst.
  - rewrite scan_unfold in Hscan.
    destruct (is_header line); [by eapply IH|].
    destruct (in_sec && is_marker line); [by inversion Hscan; subst|].
    destruct (in_sec && is_case_line line).
    { destruct (Report.parse_case_line line cur) as [cur'|] eqn:Hcase; [|done].
      refine (IH _ _ _ _ Herrors Hscan). by eapply parse_case_line_nonneg. }
    destruct cur as [pending|]; [|by eapply IH].
    destruct (_ && _); [|by eapply IH].
    destruct (Report.parse_values_line line pending) as [[error_case|]|] eqn:Hvalues;
      [|by eapply IH|done].
    refine (IH _ _ _ _ _ Hscan); [done|].
    apply Forall_app. split; [done|]. apply Forall_singleton.
    eapply parse_values_line_nonneg; [|done]. by apply Hcur.
Qed.

Lemma emitted_nonneg (eval_output : string) :
  Forall nonnegative_record (emitted eval_output).
Proof.
  unfold emitted, Report.parse_errors.
  destruct (Report.scan _ _ _ _) as [out|] eqn:Hscan; simpl; [|constructor].
  by apply scan_nonneg in Hscan.
Qed.

(** X12. No number of a parsed record is negative: the patterns of the
    parser read digits and dots only, so that days, miles, receipts, case
    number, expected output, actual output and magnitude are all at least
    zero. *)
Theorem parsed_numbers_nonnegative (eval_output : string) (e : ErrorCase) :
  e ∈ emitted eval_output -> nonnegative_record e.
Proof.
  intros Hin. pose proof (emitted_nonneg eval_output) as Hall.
  by eapply Forall_forall in Hall.
Qed.

Lemma parsed_numbers_nonnegative_witness :
  nonnegative_record
    (mkError (mkInput 2 (decimal 30 0) (decimal 1250 2))
             (decimal 500 2) (decimal 0 2) (decimal 500 2) 7).
Proof.
  apply (parsed_numbers_nonnegative tied_report).
  replace (emitted tied_report) with
    [mkError (mkInput 2 (decimal 30 0) (decimal 1250 2))
             (decimal 500 2) (decimal 0 2) (decimal 500 2) 7;
     mkError (mkInput 1 (decimal 10 0) (decimal 500 2))
             (decimal 500 2) (decimal 0 2) (decimal 500 2) 3]
    by (vm_compute; reflexivity).
  left.
Defined.

(** * Further properties of the selection and of the score *)

Lemma sorted_app_order {A} (R : A -> A -> Prop) (l1 l2 : list A) :
  StronglySorted R (l1 ++ l2) -> ∀ a b, a ∈ l1 -> b ∈ l2 -> R a b.
Proof.
  induction l1 as [|x l1 IH]; intros Hs a b Ha Hb.
  - by apply elem_of_nil in Ha.
  - simpl in Hs. apply StronglySorted_inv in Hs as [Hs Hx].
    apply elem_of_cons in Ha as [->|Ha].
    + eapply Forall_forall in Hx; [exact Hx|]. apply elem_of_app. by right.
    + by apply IH.
Qed.

(** X13. The selection is the worst part of the report: the records left
    out, together with the selection, are the records parsed, and no record
    left out has a larger magnitude than a selected one. For a count that
    is not negative the selection has exactly [min n (number of records)]
    records, so nothing is left out when [n] reaches that number. *)
Theorem top_n_takes_the_worst (errors : list ErrorCase) (n : Z) :
  (0 <= n -> length (Report.top_n errors n) = (Z.to_nat n `min` length errors)%nat)
  ∧ (Z.of_nat (length errors) <= n -> Report.top_n errors n ≡ₚ errors)
  ∧ ∃ rest, Report.top_n errors n ++ rest ≡ₚ errors
      ∧ ∀ a b, a ∈ Report.top_n errors n -> b ∈ rest -> magnitude_ge a b.
Proof.
  unfold Report.top_n. split; [|split].
  - intros Hn. unfold Report.slice_to. replace (n <? 0) with false by lia.
    by rewrite length_take, (Permutation_length (sort_desc_perm errors)).
  - intros Hn. unfold Report.slice_to. replace (n <? 0) with false by lia.
    rewrite take_ge; [apply sort_desc_perm|].
    rewrite (Permutation_length (sort_desc_perm errors)). lia.
  - destruct (slice_to_take (Report.sort_desc errors) n) as [k ->].
    exists (drop k (Report.sort_desc errors)). split.
    + rewrite take_drop. apply sort_desc_perm.
    + apply sorted_app_order. rewrite take_drop. apply sort_desc_sorted.
Qed.

Lemma top_n_takes_the_worst_witness :
  length (Report.top_n (emitted ragged_report) 1) = 1%nat
  ∧ Report.top_n (emitted ragged_report) 5 ≡ₚ emitted ragged_report.
Proof.
  split.
  - rewrite (proj1 (top_n_takes_the_worst (emitted ragged_report) 1)) by lia.
    vm_compute. reflexivity.
  - apply (proj1 (proj2 (top_n_takes_the_worst (emitted ragged_report) 5))).
    vm_compute. discriminate.
Defined.

Lemma py_max0_nonneg (y : float) : (zero <= py_max0 y)%Qc.
Proof.
  unfold py_max0. destruct (ltb zero y) eqn:Hlt; [|apply Qcle_refl].
  apply ltb_lt in Hlt. by apply Qclt_le_weak.
Qed.

Lemma py_max0_le (y bound : float) :
  (zero <= bound)%Qc -> (y <= bound)%Qc -> (py_max0 y <= bound)%Qc.
Proof. intros Hb Hy. unfold py_max0. by destruct (ltb zero y). Qed.

Lemma hundred_minus_le (a : Qc) : (zero <= a)%Qc -> (of_int 100 - a <= of_int 100)%Qc.
Proof.
  intros Ha. apply Qcle_minus_iff.
  assert (Heq : @eq Qc (of_int 100 + - (of_int 100 - a))%Qc a) by ring.
  rewrite Heq. exact Ha.
Qed.

Lemma extracted_score_range (output : string) (score : float) :
  Report.extract_score_from_output output = Some score ->
  (zero <= score)%Qc
  ∧ (Text.search Report.exact_pattern output = None -> (score <= of_int 100)%Qc).
Proof.
  unfold Report.extract_score_from_output.
  destruct (Text.search Report.exact_pattern output) as [[|g1 [|g2 [|]]]|] eqn:Hexact.
  3: { intros Hscore. split; [by eapply py_float_nonneg|done]. }
  all: destruct (Text.search Report.average_pattern output) as [[|avg [|]]|];
    try (intros [= <-]; split; [apply Qcle_refl|]; intros _;
         apply of_int_nonneg; lia).
  all: destruct (Text.py_float avg) as [a|] eqn:Havg; [|done].
  all: intros [= <-]; split; [apply py_max0_nonneg|]; intros _.
  all: apply py_max0_le; [apply of_int_nonneg; lia|].
  all: apply hundred_minus_le; by eapply py_float_nonneg.
Qed.

(** X14. A score is never negative, and a score derived from the average
    error is at most 100; the exact-match percentage is passed on as it is
    written, without an upper bound. *)
Theorem score_bounds (output : string) (score : float) :
  Report.extract_score_from_output output = Some score ->
  (zero <= score)%Qc
  ∧ (Text.search Report.exact_pattern output = None -> (score <= of_int 100)%Qc).
Proof. apply extracted_score_range. Qed.

Lemma score_bounds_witness :
  (zero <= decimal 2500 1)%Qc
  ∧ (py_max0 (of_int 100 - decimal 25050 2) <= of_int 100)%Qc.
Proof.
  split.
  - apply (proj1 (score_bounds "Exact matches: 5 (250.0%)" (decimal 2500 1)
                    ltac:(vm_compute; reflexivity))).
  - apply (proj2 (score_bounds "Average error: $250.50"
                    (py_max0 (of_int 100 - decimal 25050 2)%Qc)
                    ltac:(vm_compute; reflexivity))).
    vm_compute. reflexivity.
Defined.

(** X15. What an evaluation hands to the loop. The score is never negative;
    the error cases are records of the report, none with a negative number,
    and at most [top_n_errors] of them when that count is not negative; a
    failed harness run gives score 0.0 and no case; and cases are handed on
    only from a run that exited with status 0 and whose score could be
    read: when the score line cannot be converted, nothing is learned. *)
Theorem evaluation_result (self : ContinuousImprovement) (outcome : HarnessOutcome) :
  let r := run_evaluation self outcome in
  (zero <= r.1)%Qc
  ∧ Forall nonnegative_record r.2
  ∧ (0 <= top_n_errors self -> Z.of_nat (length r.2) <= top_n_errors self)
  ∧ (harness_failed outcome -> r = (zero, []))
  ∧ (∀ returncode output, outcome = Exited returncode output -> r.2 ⊆+ emitted output)
  ∧ (r.2 ≠ [] ->
     ∃ output, outcome = Exited 0 output
       ∧ Report.extract_score_from_output output = Some r.1).
Proof.
  intros r. unfold r, run_evaluation.
  assert (Hnothing : ∀ output : option string,
    (zero <= (zero, @nil ErrorCase).1)%Qc
    ∧ Forall nonnegative_record (zero, @nil ErrorCase).2
    ∧ (0 <= top_n_errors self ->
       Z.of_nat (length (zero, @nil ErrorCase).2) <= top_n_errors self)
    ∧ (∀ text, output = Some text -> (zero, @nil ErrorCase).2 ⊆+ emitted text)).
  { intros output. simpl. split; [apply Qcle_refl|]. split; [constructor|].
    split; [lia|]. intros text _. apply submseteq_nil_l. }
  destruct outcome as [|returncode output].
  { destruct (Hnothing None) as (H1 & H2 & H3 & _).
    split; [done|]. split; [done|]. split; [done|]. split; [done|].
    split; [intros ? ? [=]|done]. }
  assert (Hfailed : (zero, @nil ErrorCase).1 = zero -> 
    (zero <= (zero, @nil ErrorCase).1)%Qc
    ∧ Forall nonnegative_record (zero, @nil ErrorCase).2
    ∧ (0 <= top_n_errors self ->
       Z.of_nat (length (zero, @nil ErrorCase).2) <= top_n_errors self)
    ∧ (harness_failed (Exited returncode output) -> (zero, @nil ErrorCase) = (zero, []))
    ∧ (∀ returncode' output',
         Exited returncode output = Exited returncode' output' ->
         (zero, @nil ErrorCase).2 ⊆+ emitted output')
    ∧ ((zero, @nil ErrorCase).2 ≠ [] ->
       ∃ output', Exited returncode output = Exited 0 output'
         ∧ Report.extract_score_from_output output' = Some (zero, @nil ErrorCase).1)).
  { intros _. destruct (Hnothing (Some output)) as (H1 & H2 & H3 & H4).
    split; [done|]. split; [done|]. split; [done|]. split; [done|].
    split; [|done]. intros ? ? [= _ <-]. by apply H4. }
  destruct (Z.eqb_spec returncode 0) as [->|Hrc]; simpl negb; cbv iota;
    [|by apply Hfailed].
  unfold Report.extract_errors_from_eval_output.
  destruct (Report.parse_errors output) as [errors|] eqn:Hparse;
    [|by apply Hfailed].
  destruct (Report.extract_score_from_output output) as [score|] eqn:Hscore;
    [|by apply Hfailed].
  cbn [fst snd].
  assert (Hsub : Report.top_n errors (top_n_errors self) ⊆+ errors).
  { unfold Report.top_n.
    destruct (slice_to_take (Report.sort_desc errors) (top_n_errors self)) as [k ->].
    rewrite <- (sort_desc_perm errors) at 2. apply submseteq_take. }
  assert (Hemitted : emitted output = errors) by (unfold emitted; by rewrite Hparse).
  split; [by apply (extracted_score_range output)|]. split; [|split; [|split; [|split]]].
  - apply Forall_forall. intros e He.
    pose proof (emitted_nonneg output) as Hall. rewrite Hemitted in Hall.
    eapply Forall_forall in Hall; [exact Hall|].
    eapply elem_of_submseteq; [exact He|exact Hsub].
  - intros Hn. unfold Report.top_n, Report.slice_to.
    replace (top_n_errors self <? 0) with false by lia.
    rewrite length_take. lia.
  - intros Hbad. by destruct Hbad.
  - intros ? ? [= _ <-]. by rewrite Hemitted.
  - intros _. by exists output.
Qed.

Lemma evaluation_result_witness :
  let self := mkImprovement (mkEngine "rules.json" ∅) 1 0 in
  Z.of_nat (length (run_evaluation self (Exited 0 tied_report)).2) <= 1
  ∧ run_evaluation self (Exited 2 tied_report) = (zero, []).
Proof.
  intros self. split.
  - apply (proj1 (proj2 (proj2 (evaluation_result self (Exited 0 tied_report))))).
    simpl. lia.
  - apply (proj1 (proj2 (proj2 (proj2 (evaluation_result self (Exited 2 tied_report)))))).
    simpl. lia.
Defined.

(** * Seeding and learning in a whole run *)

Section QuietRun.

Variable float_repr : float -> string.
Variable harness : Harness.

(** No evaluation selects an error case. *)
Hypothesis quiet : ∀ i self, (run_evaluation self (harness i)).2 = [].

Lemma quiet_iteration (self : ContinuousImprovement) (fs : FileSystem) :
  engine (run_iteration float_repr harness self fs).1.2 = engine self
  ∧ (run_iteration float_repr harness self fs).2 = fs.
Proof.
  unfold run_iteration. simpl.
  pose proof (quiet (S (iteration self))
                    (mkImprovement (engine self) (top_n_errors self)
                                   (S (iteration self)))) as Hq.
  destruct (run_evaluation _ _) as [score errors]. simpl in Hq. by subst.
Qed.

Lemma quiet_loop (target_score : float) (remaining : nat)
    (self : ContinuousImprovement) (fs : FileSystem)
    (best_score : float) (stagnant : nat) (last : option float) :
  let looped := improvement_loop float_repr harness target_score remaining self fs
                                 best_score stagnant last in
  engine looped.1.1.2 = engine self ∧ looped.1.2 = fs.
Proof.
  revert self fs best_score stagnant last.
  induction remaining as [|remaining IH]; intros self fs best stagnant last; [done|].
  cbn zeta. rewrite improvement_loop_step. cbn zeta.
  destruct (quiet_iteration self fs) as [He Hf].
  set (it := run_iteration float_repr harness self fs) in *.
  destruct (leb target_score _); [done|].
  destruct (_ <=? _)%nat; [done|].
  specialize (IH it.1.2 it.2 (next_best best it.1.1.1)
                 (next_stagnant best it.1.1.1 stagnant) (Some it.1.1.1)).
  cbn zeta in IH. destruct IH as [IHe IHf]. split; congruence.
Qed.

End QuietRun.

(** X16. A run never seeds a store that has rules: when no evaluation of
    the run selects an error case, a store that is not empty and the files
    are after the run what they were before it, whatever the manifest
    holds; no amount is reset to 0.0. *)
Theorem quiet_run_changes_nothing float_repr (harness : Harness)
    (self : ContinuousImprovement) (fs : FileSystem)
    (max_iterations : Z) (target_score : float) :
  get_rule_count (engine self) ≠ O ->
  (∀ i s, (run_evaluation s (harness i)).2 = []) ->
  let r := run_continuous_improvement float_repr harness self fs max_iterations
                                      target_score in
  engine (final r) = engine self ∧ files r = fs.
Proof.
  intros Hrules Hquiet r. unfold r, run_continuous_improvement.
  destruct (Nat.eqb_spec (get_rule_count (engine self)) 0) as [|_]; [done|].
  destruct (quiet_loop float_repr harness Hquiet target_score
              (Z.to_nat max_iterations) self fs zero O None) as [He Hf].
  cbn zeta in *.
  by destruct (improvement_loop _ _ _ _ _ _ _ _ _) as [[[e s] f] sc].
Qed.

Lemma quiet_run_changes_nothing_witness :
  let store := add_rule (mkEngine "rules.json" ∅) 1 (decimal 10 0) (decimal 500 2)
                        (decimal 77 0) in
  let fs : FileSystem :=
    {[ private_cases_file := CaseList [CaseEntry 1 (decimal 10 0) (decimal 500 2)] ]} in
  let r := run_continuous_improvement fraction_repr failing_harness
             (mkImprovement store 10 0) fs 300 (decimal 950 1) in
  engine (final r) = store ∧ files r = fs.
Proof.
  intros store fs r.
  apply (quiet_run_changes_nothing fraction_repr failing_harness
           (mkImprovement store 10 0) fs 300 (decimal 950 1)).
  - vm_compute. discriminate.
  - reflexivity.
Defined.

(** X17. A run on an empty store seeds it first: with a manifest of proper
    cases, the key of every case is a key of the store after the run. *)
Theorem run_seeds_empty_store float_repr (harness : Harness)
    (self : ContinuousImprovement) (fs : FileSystem)
    (max_iterations : Z) (target_score : float) (cases : list ManifestEntry) :
  get_rule_count (engine self) = O ->
  fs !! private_cases_file = Some (CaseList cases) ->
  BadEntry ∉ cases ->
  let r := run_continuous_improvement float_repr harness self fs max_iterations
                                      target_score in
  ∀ d m r', CaseEntry d m r' ∈ cases ->
            is_Some (rules (engine (final r)) !! _make_key d m r').
Proof.
  intros Hempty Hfile Hbad r d m r' Hin. unfold r, run_continuous_improvement.
  rewrite Hempty. simpl Nat.eqb. cbv iota. unfold initialize_rules.
  pose proof (initialize_engine float_repr (engine self) private_cases_file fs cases
                Hfile) as Hinit.
  destruct (initialize_from_private_cases _ _ _ _) as [engine' fs']. simpl in Hinit.
  destruct (loop_keeps float_repr harness target_score (Z.to_nat max_iterations)
              (mkImprovement engine' (top_n_errors self) (iteration self)) fs'
              zero O None) as ([_ Hkeys] & _).
  cbn zeta in Hkeys.
  destruct (improvement_loop _ _ _ _ _ _ _ _ _) as [[[e s] f] sc]. simpl in *.
  apply Hkeys. subst engine'. exists zero. by apply add_cases_zero.
Qed.

Lemma run_seeds_empty_store_witness :
  let fs : FileSystem :=
    {[ private_cases_file := CaseList [CaseEntry 1 (decimal 10 0) (decimal 500 2)] ]} in
  let r := run_continuous_improvement fraction_repr steady_harness
             (mkImprovement (mkEngine "rules.json" ∅) 10 0) fs 300 (decimal 950 1) in
  is_Some (rules (engine (final r)) !! _make_key 1 (decimal 10 0) (decimal 500 2)).
Proof.
  intros fs r.
  apply (run_seeds_empty_store fraction_repr steady_harness
           (mkImprovement (mkEngine "rules.json" ∅) 10 0) fs 300 (decimal 950 1)
           [CaseEntry 1 (decimal 10 0) (decimal 500 2)]).
  - reflexivity.
  - apply lookup_singleton_eq.
  - intros Hin. apply list_elem_of_singleton in Hin. discriminate Hin.
  - left.
Defined.

(** * The lookup command *)

Lemma new_engine_unreadable (fs : FileSystem) (file : string) :
  fs !! file = None ∨ fs !! file = Some Incomplete
  ∨ (∃ cases, fs !! file = Some (CaseList cases)) ->
  new_engine file fs = Some (mkEngine file ∅).
Proof.
  unfold new_engine, load_rules. simpl.
  by intros [-> | [-> | [cases ->]]].
Qed.

(** X18. A query for inputs the store does not hold is answered [0.00]
    with exit status 0: so it is when the store file is missing, is
    incomplete or holds something else than rules, and when the store
    loaded has no rule under the key of the inputs. *)
Theorem lookup_defaults_to_zero (days_text miles_text receipts_text : string)
    (days : Z) (miles receipts : float) (fs : FileSystem) :
  Cli.cli_int days_text = Cli.Converted days ->
  Cli.cli_float miles_text = Cli.Converted miles ->
  Cli.cli_float receipts_text = Cli.Converted receipts ->
  (fs !! Cli.default_rules_file = None
   ∨ fs !! Cli.default_rules_file = Some Incomplete
   ∨ (∃ cases, fs !! Cli.default_rules_file = Some (CaseList cases))
   ∨ (∃ engine, new_engine Cli.default_rules_file fs = Some engine
        ∧ rules engine !! _make_key days miles receipts = None)) ->
  Cli.main [days_text; miles_text; receipts_text] fs = Cli.Exit 0 ("0.00" +:+ br).
Proof.
  intros Hd Hm Hr Hfile. unfold Cli.main. rewrite Hd, Hm, Hr.
  assert (Hload : ∃ engine, new_engine Cli.default_rules_file fs = Some engine
                    ∧ rules engine !! _make_key days miles receipts = None).
  { destruct Hfile as [H|[H|[H|H]]]; [| | |exact H];
      (eexists; split; [apply new_engine_unreadable; eauto|apply lookup_empty]). }
  destruct Hload as (engine & -> & Hnone).
  unfold predict. by rewrite Hnone.
Qed.

Lemma lookup_defaults_to_zero_witness :
  Cli.main ["3"; "100.5"; "45"] ∅ = Cli.Exit 0 ("0.00" +:+ br).
Proof.
  apply (lookup_defaults_to_zero "3" "100.5" "45" 3 (decimal 1005 1) (of_int 45) ∅);
    [vm_compute; reflexivity ..|].
  left. apply lookup_empty.
Defined.

(** X19. What the loop has learned, the lookup command prints: after the
    engine has learned a list of error cases and saved them to the default
    store file, a query with the inputs of a case prints its expected
    output with two decimals and exits with status 0, unless a later case
    of the list has the same key, and provided [eval] reads every key text
    of the file back as its key. *)
Theorem lookup_prints_what_was_learned float_repr (self : RulesEngine)
    (fs : FileSystem) (pre post : list ErrorCase) (e : ErrorCase)
    (days_text miles_text receipts_text : string) :
  rules_file self = Cli.default_rules_file ->
  Forall (λ e', error_key e' ≠ error_key e) post ->
  let after := engine_update_rules_from_errors float_repr self (pre ++ e :: post) fs in
  (∀ k v, rules after.1 !! k = Some v -> py_eval (str_key float_repr k) = EvalKey k) ->
  Cli.cli_int days_text = Cli.Converted (trip_duration_days (input e)) ->
  Cli.cli_float miles_text = Cli.Converted (miles_traveled (input e)) ->
  Cli.cli_float receipts_text = Cli.Converted (total_receipts_amount (input e)) ->
  Cli.main [days_text; miles_text; receipts_text] after.2
  = Cli.Exit 0 (Cli.format_2f (expected_output e) +:+ br).
Proof.
  intros Hname Hpost after Heval Hd Hm Hr.
  unfold Cli.main. rewrite Hd, Hm, Hr.
  unfold after, engine_update_rules_from_errors in *. cbn [fst snd] in *.
  unfold new_engine. rewrite (load_after_save float_repr _ _ fs).
  - unfold predict. fold (error_key e). by rewrite learned_last.
  - simpl. by rewrite learned_rules_file.
  - exact Heval.
Qed.

Lemma lookup_prints_what_was_learned_witness :
  let e := mkError (mkInput 7 (decimal 1033 0) (decimal 101303 2))
                   (decimal 211983 2) zero (decimal 211983 2) 669 in
  let after :=
    engine_update_rules_from_errors cents_repr (mkEngine "rules.json" ∅) [e] ∅ in
  Cli.main ["7"; "1033"; "1013.03"] after.2 = Cli.Exit 0 ("2119.83" +:+ br).
Proof.
  intros e after.
  apply (lookup_prints_what_was_learned cents_repr (mkEngine "rules.json" ∅) ∅ [] [] e
           "7" "1033" "1013.03" eq_refl (Forall_nil_2 _)).
  - intros k v Hkv. simpl in Hkv. unfold add_error_case, add_rule in Hkv. simpl in Hkv.
    apply lookup_insert_Some in Hkv as [[<- _]|[_ Hkv]].
    + vm_compute. reflexivity.
    + by rewrite lookup_empty in Hkv.
  - vm_compute. reflexivity.
  - vm_compute. reflexivity.
  - vm_compute. reflexivity.
Defined.

(** * The progress observer *)

Lemma count_completed_numbers (values : list float) :
  Monitor.count_completed (JNumber <$> values)
  = Some (length values - length (filter (λ value, eqb value zero = true) values))%nat.
Proof.
  induction values as [|v values IH]; [done|].
  cbn [fmap list_fmap Monitor.count_completed float_of_json]. 
  change (list_fmap float JsonValue JNumber values) with (JNumber <$> values).
  rewrite IH. pose proof (length_filter (λ value, eqb value zero = true) values).
  destruct (eqb v zero) eqn:Hv.
  - rewrite filter_cons_True by done. simpl. f_equal.
  - rewrite filter_cons_False by (by rewrite Hv). simpl. f_equal. lia.
Qed.

Lemma count_completed_le (values : list JsonValue) (n : nat) :
  Monitor.count_completed values = Some n -> (n ≤ length values)%nat.
Proof.
  revert n. induction values as [|v values IH]; intros n; simpl.
  - intros [= <-]. lia.
  - destruct (float_of_json v) as [x|]; [|done].
    destruct (Monitor.count_completed values) as [m|]; [|done].
    specialize (IH m eq_refl). intros [= <-]. destruct (eqb x zero); lia.
Qed.

(** X20. The observer counts what the engine counts: on the file a save
    has written it reports the engine's number of rules, of rules at 0.0
    and of completed rules, without error; on the file as it is between the
    two steps of the save it reports the error statistics, all zero. *)
Theorem observer_agrees_with_engine float_repr (self : RulesEngine) (fs : FileSystem) :
  let stats := Monitor.get_completion_stats (rules_file self)
                                            (save_rules float_repr self fs) in
  Monitor.total_rules stats = get_rule_count self
  ∧ Monitor.zero_rules stats = get_zero_count self
  ∧ Monitor.completed_rules stats = non_default_count self
  ∧ Monitor.error stats = false
  ∧ (∀ fs', head (states_during fs (save_rules_ops float_repr self)) = Some fs' ->
            Monitor.get_completion_stats (rules_file self) fs' = Monitor.error_stats).
Proof.
  intros stats.
  assert (Hle : (get_zero_count self ≤ get_rule_count self)%nat).
  { unfold get_zero_count, get_rule_count.
    etrans; [apply length_filter|]. by rewrite length_fmap, length_map_to_list. }
  assert (Hstats : stats = Monitor.mkStats (get_rule_count self) (non_default_count self)
                     (get_rule_count self - non_default_count self)
                     (Monitor.completion_rate stats) false).
  { unfold stats, Monitor.get_completion_stats, save_rules, run_ops. simpl.
    rewrite lookup_insert_eq.
    rewrite <- list_fmap_compose.
    change (snd ∘ (λ kv : Key * float, (str_key float_repr kv.1, JNumber kv.2)))
      with (JNumber ∘ (snd : Key * float -> float)).
    rewrite list_fmap_compose, count_completed_numbers.
    rewrite !length_fmap, length_map_to_list. reflexivity. }
  rewrite Hstats. simpl. unfold non_default_count.
  repeat split; try done; try lia.
  intros fs' [= <-]. unfold Monitor.get_completion_stats.
  by rewrite lookup_insert_eq.
Qed.

Lemma rate_bounds (completed total : nat) :
  (completed ≤ total)%nat -> (0 < total)%nat ->
  (zero <= of_int (Z.of_nat completed) / of_int (Z.of_nat total) * of_int 100)%Qc
  ∧ (of_int (Z.of_nat completed) / of_int (Z.of_nat total) * of_int 100
     <= of_int 100)%Qc.
Proof.
  intros Hle Hpos.
  assert (Ht : (0 < inject_Z (Z.of_nat total))%Q).
  { rewrite <- (Zlt_Qlt 0). lia. }
  assert (Hc : (0 <= inject_Z (Z.of_nat completed))%Q).
  { rewrite <- (Zle_Qle 0). lia. }
  assert (Hct : (inject_Z (Z.of_nat completed) <= inject_Z (Z.of_nat total))%Q).
  { rewrite <- Zle_Qle. lia. }
  unfold Qcle, zero, of_int, Qcdiv, Qcmult, Qcinv, Q2Qc. cbn [this].
  rewrite !Qred_correct.
  assert (Hratio : (0 <= inject_Z (Z.of_nat completed) * / inject_Z (Z.of_nat total)
                    /\ inject_Z (Z.of_nat completed) * / inject_Z (Z.of_nat total) <= 1)%Q).
  { split.
    - apply Qle_shift_div_l; [exact Ht|]. by rewrite Qmult_0_l.
    - apply Qle_shift_div_r; [exact Ht|]. by rewrite Qmult_1_l. }
  destruct Hratio as [H0 H1]. split.
  - apply Qmult_le_0_compat; [exact H0|]. by rewrite <- (Zle_Qle 0).
  - apply Qle_trans with (1 * inject_Z 100)%Q.
    + apply Qmult_le_compat_r; [exact H1|]. by rewrite <- (Zle_Qle 0).
    + rewrite Qmult_1_l. apply Qle_refl.
Qed.

(** X21. The statistics of the observer are consistent on every file:
    completed and zero rules add up to the total, the completion rate lies
    between 0 and 100 and is 0 for an empty document (no division by
    zero), and a file that cannot be read gives zeros with the error
    mark. *)
Theorem observer_stats_consistent (rules_file : string) (fs : FileSystem) :
  let stats := Monitor.get_completion_stats rules_file fs in
  (Monitor.completed_rules stats + Monitor.zero_rules stats
   = Monitor.total_rules stats)%nat
  ∧ (zero <= Monitor.completion_rate stats)%Qc
  ∧ (Monitor.completion_rate stats <= of_int 100)%Qc
  ∧ (Monitor.total_rules stats = O -> Monitor.completion_rate stats = zero)
  ∧ (Monitor.error stats = true -> stats = Monitor.error_stats).
Proof.
  intros stats. unfold stats, Monitor.get_completion_stats.
  assert (Herr : (Monitor.completed_rules Monitor.error_stats
                  + Monitor.zero_rules Monitor.error_stats
                  = Monitor.total_rules Monitor.error_stats)%nat
                 ∧ (zero <= Monitor.completion_rate Monitor.error_stats)%Qc
                 ∧ (Monitor.completion_rate Monitor.error_stats <= of_int 100)%Qc
                 ∧ (Monitor.total_rules Monitor.error_stats = O ->
                    Monitor.completion_rate Monitor.error_stats = zero)
                 ∧ (Monitor.error Monitor.error_stats = true ->
                    Monitor.error_stats = Monitor.error_stats)).
  { simpl. split; [done|]. split; [apply Qcle_refl|].
    split; [by apply of_int_nonneg|done]. }
  destruct (fs !! rules_file) as [[|data|cases]|]; try exact Herr.
  destruct (Monitor.count_completed data.*2) as [completed|] eqn:Hcount; [|exact Herr].
  apply count_completed_le in Hcount. rewrite length_fmap in Hcount. simpl.
  split; [lia|].
  destruct (Nat.ltb_spec 0 (length data)) as [Hpos|Hzero].
  - split; [|split; [|split; [lia|done]]].
    + apply rate_bounds; lia.
    + apply rate_bounds; lia.
  - split; [apply Qcle_refl|]. split; [by apply of_int_nonneg|done].
Qed.

(** * Keys that no query reaches *)

(** X22. [predict] only ever looks up rounded keys: a rule whose key has
    miles or receipts that are not already rounded to two decimals, as a
    store file edited by hand can hold, is counted among the rules but is
    returned by no query. *)
Theorem unrounded_key_is_unreachable (self : RulesEngine) (k : Key) (v : float) :
  rules self !! k = Some v ->
  py_round k.1.2 2 ≠ k.1.2 ∨ py_round k.2 2 ≠ k.2 ->
  (0 < get_rule_count self)%nat
  ∧ ∀ d m r, _make_key d m r ≠ k
             ∧ predict self d m r = predict (mkEngine (rules_file self)
                                                      (delete k (rules self))) d m r.
Proof.
  intros Hkv Hraw.
  assert (Hne : ∀ d m r, _make_key d m r ≠ k).
  { intros d m r <-. simpl in Hraw. rewrite !py_round_idempotent in Hraw.
    by destruct Hraw. }
  split.
  - unfold get_rule_count. destruct (size (rules self)) eqn:Hsize; [|lia].
    apply map_size_empty_iff in Hsize. by rewrite Hsize, lookup_empty in Hkv.
  - intros d m r. split; [apply Hne|].
    unfold predict. simpl. by rewrite lookup_delete_ne.
Qed.

Lemma unrounded_key_is_unreachable_witness :
  let k : Key := (1, decimal 47123 3, decimal 50 1) in
  let self := mkEngine "rules.json" {[ k := decimal 125 1 ]} in
  predict self 1 (decimal 47123 3) (decimal 50 1) = zero.
Proof.
  intros k self.
  destruct (unrounded_key_is_unreachable self k (decimal 125 1)) as [_ Hq].
  - apply lookup_singleton_eq.
  - left. simpl. float_neq.
  - rewrite (proj2 (Hq 1 (decimal 47123 3) (decimal 50 1))).
    unfold predict. simpl. by rewrite delete_singleton_eq, lookup_empty.
Defined.
